(** * Ship-grounding event extraction: the two extractors and their properties

    The repository holds two scripts.  [GroundingEventExtractor] (file
    Grounding-extraction-spacy+pattern.py) is the keyword-centric variant: it
    searches the text for dictionary keywords with regular expressions and
    adds what spaCy's entities and dependencies give.  [SpacyGroundingExtractor]
    (file Grounding-extraction-spacy.py) is the matcher-centric variant: it
    relies on spaCy's Matcher, entities and dependency parse only.

    Python values are embedded as follows.
    - A [str] is a list of code points ([Str.str]).  The code points are
      those below 256, U+0130 (capital I with dot above) and U+0307
      (combining dot above): [str.lower] turns U+0130 into the two code
      points "i" and U+0307, the only case where lowering changes the length
      of a text and the word class of a character, and the alphabet is
      closed under it.  [str.lower], the class [\w] and [str.isspace] on
      these code points are the maps of modules [Py] and [PyText] below.
    - A [dict] whose keys are computed is an association list in insertion
      order ([Py.dict]); [d[k]] on a missing key raises [KeyError], so such
      code lives in the error monad [Py.M].
    - A local [dict] built from a literal and only read through literal keys
      is a record.
    - [list(set(xs))] keeps one copy of each element, in an order Python does
      not fix; [Py.list_set] keeps one occurrence of each, and no statement
      below depends on the order.
    - spaCy is an external collaborator: a loaded pipeline is a function from
      the text to a [Spacy.Doc]. *)

From Stdlib Require Import Strings.Ascii Strings.Byte Lists.List.
From Stdlib Require Import Arith.PeanoNat Bool.Bool micromega.Lia.
From Stdlib Require Import Sorting.Permutation Sorting.Sorted.
Import ListNotations.

(* ================================================================== *)
(** ** Python strings *)
(* ================================================================== *)

Module Str.

(** A code point: one below 256, U+0130 or U+0307. *)
Inductive char : Type :=
| Latin (a : ascii)
| CapitalIDot
| CombiningDot.

Definition str : Type := list char.

(** String literals are read as the [str] of their bytes. *)
Inductive literal : Type :=
| LNil
| LCons (c : char) (l : literal).

Fixpoint of_bytes (bs : list byte) : literal :=
  match bs with
  | [] => LNil
  | b :: bs' => LCons (Latin (ascii_of_byte b)) (of_bytes bs')
  end.

Fixpoint to_bytes (l : literal) : option (list byte) :=
  match l with
  | LNil => Some []
  | LCons (Latin a) l' => option_map (cons (byte_of_ascii a)) (to_bytes l')
  | LCons _ _ => None
  end.

(** [c1 == c2] on code points. *)
Definition char_eqb (c1 c2 : char) : bool :=
  match c1, c2 with
  | Latin a1, Latin a2 => Ascii.eqb a1 a2
  | CapitalIDot, CapitalIDot => true
  | CombiningDot, CombiningDot => true
  | _, _ => false
  end.

(** [s1 == s2]. *)
Fixpoint eqb (s1 s2 : str) : bool :=
  match s1, s2 with
  | [], [] => true
  | c1 :: s1', c2 :: s2' => char_eqb c1 c2 && eqb s1' s2'
  | _, _ => false
  end.

Definition eq_dec (s1 s2 : str) : {s1 = s2} + {s1 <> s2}.
Proof. repeat decide equality. Defined.

(** [s[i]], when [i] is an index of [s]. *)
Definition get (i : nat) (s : str) : option char := nth_error s i.

(** [s[i:i+n]]. *)
Definition substring (i n : nat) (s : str) : str := firstn n (skipn i s).

(** [s2.startswith(s1)]. *)
Fixpoint prefix (s1 s2 : str) : bool :=
  match s1, s2 with
  | [], _ => true
  | c1 :: s1', c2 :: s2' => char_eqb c1 c2 && prefix s1' s2'
  | _ :: _, [] => false
  end.

(** [sep.join(parts)]. *)
Fixpoint concat (sep : str) (parts : list str) : str :=
  match parts with
  | [] => []
  | [part] => part
  | part :: parts' => part ++ sep ++ concat sep parts'
  end.

End Str.

Export Str(char, str).

Declare Scope str_scope.
Delimit Scope str_scope with str.
#[warnings="-via-type-mismatch,-via-type-remapping"]
String Notation Str.str Str.of_bytes Str.to_bytes
  (via Str.literal mapping [[nil] => Str.LNil, [cons] => Str.LCons])
  : str_scope.

Open Scope str_scope.
Open Scope list_scope.

(* ================================================================== *)
(** ** Python runtime *)
(* ================================================================== *)

Module Py.

(** [in_range lo hi n] is [lo <= n <= hi]. *)
Definition in_range (lo hi n : nat) : bool :=
  ((lo <=? n) && (n <=? hi))%nat.

(** The lower-case mapping of one code point below 256: [A-Z] and the
    upper-case Latin-1 letters (all of 192..222 but the multiplication sign
    215) move up by 32. *)
Definition lower_latin (a : ascii) : ascii :=
  let n := nat_of_ascii a in
  if in_range 65 90 n || in_range 192 214 n || in_range 216 222 n
  then ascii_of_nat (n + 32) else a.

(** [c.lower()] on one code point: U+0130 becomes "i" followed by
    U+0307. *)
Definition lower_char (c : char) : str :=
  match c with
  | Str.Latin a => [Str.Latin (lower_latin a)]
  | Str.CapitalIDot => [Str.Latin "i"; Str.CombiningDot]
  | Str.CombiningDot => [Str.CombiningDot]
  end.

(** The class [\w] of [re] on [str] patterns: alphanumeric code points and
    the underscore.  U+0130 is a letter, U+0307 a mark. *)
Definition is_word (c : char) : bool :=
  match c with
  | Str.Latin a =>
      let n := nat_of_ascii a in
      in_range 48 57 n || in_range 65 90 n || (n =? 95)%nat
      || in_range 97 122 n
      || (n =? 170)%nat || in_range 178 179 n || (n =? 181)%nat
      || in_range 185 186 n
      || in_range 188 190 n || in_range 192 214 n || in_range 216 246 n
      || in_range 248 255 n
  | Str.CapitalIDot => true
  | Str.CombiningDot => false
  end.

(** [s.lower()]. *)
Fixpoint lower (s : str) : str :=
  match s with
  | [] => []
  | c :: s' => lower_char c ++ lower s'
  end.

(** [needle in hay] on strings: substring containment. *)
Fixpoint contains (needle hay : str) : bool :=
  Str.prefix needle hay ||
  match hay with
  | [] => false
  | _ :: hay' => contains needle hay'
  end.

(** [text[start:stop]] for non-negative indices. *)
Definition slice (text : str) (start stop : nat) : str :=
  Str.substring start (stop - start) text.

(** [x in xs] on a list of strings. *)
Definition str_in (x : str) (xs : list str) : bool :=
  existsb (Str.eqb x) xs.

(** [list(set(xs))]. *)
Definition list_set (xs : list str) : list str :=
  nodup Str.eq_dec xs.

(** *** Exceptions *)

Inductive exn : Type :=
| KeyError (key : str)
| ValueError (msg : str).

Inductive M (A : Type) : Type :=
| Ok (a : A)
| Raise (e : exn).
Arguments Ok {A} a.
Arguments Raise {A} e.

Definition bind {A B : Type} (m : M A) (k : A -> M B) : M B :=
  match m with
  | Ok a => k a
  | Raise e => Raise e
  end.

(** [for x in xs: body], threading the mutated state [s]. *)
Fixpoint for_each {A S : Type} (xs : list A) (body : A -> S -> M S) (s : S)
  : M S :=
  match xs with
  | [] => Ok s
  | x :: xs' => bind (body x s) (for_each xs' body)
  end.

(** *** Dictionaries with computed keys *)

Definition dict (V : Type) : Type := list (str * V).

Definition keys {V : Type} (d : dict V) : list str := map fst d.

(** [d.get(k)]. *)
Fixpoint dict_get {V : Type} (d : dict V) (k : str) : option V :=
  match d with
  | [] => None
  | (k', v) :: d' => if Str.eqb k k' then Some v else dict_get d' k
  end.

(** [d[k]]. *)
Definition dict_item {V : Type} (d : dict V) (k : str) : M V :=
  match dict_get d k with
  | Some v => Ok v
  | None => Raise (KeyError k)
  end.

(** [d[k] = v]: the binding is replaced in place, or appended when new. *)
Fixpoint dict_set {V : Type} (d : dict V) (k : str) (v : V) : dict V :=
  match d with
  | [] => [(k, v)]
  | (k', v') :: d' =>
      if Str.eqb k k' then (k', v) :: d' else (k', v') :: dict_set d' k v
  end.

(** [max(d, key=d.get)] on a dictionary of counts: the first key, in
    insertion order, whose count no other key exceeds.  The key function
    returns, for each key, the count bound to it, which is the second
    component of its entry.  On an empty dictionary [max] raises. *)
Fixpoint max_from (best : str) (best_score : nat) (d : dict nat) : str :=
  match d with
  | [] => best
  | (k, v) :: d' =>
      if (best_score <? v)%nat then max_from k v d'
      else max_from best best_score d'
  end.

Definition max_key (d : dict nat) : M str :=
  match d with
  | [] => Raise (ValueError "max() arg is an empty sequence")
  | (k, v) :: d' => Ok (max_from k v d')
  end.

End Py.

Notation "x <- m ;; k" := (Py.bind m (fun x => k))
  (at level 61, m at next level, right associativity).

(* ================================================================== *)
(** ** The regular expressions of the keyword-centric variant *)
(* ================================================================== *)

Module Re.

(** Whether position [i] of [t] holds a word character; positions outside
    the string hold none. *)
Definition word_at (t : str) (i : nat) : bool :=
  match Str.get i t with
  | Some c => Py.is_word c
  | None => false
  end.

(** [\b] at position [i]: exactly one of the characters before and at [i] is
    a word character. *)
Definition at_boundary (t : str) (i : nat) : bool :=
  xorb (match i with 0 => false | S j => word_at t j end) (word_at t i).

(** Under [re.IGNORECASE] a character of the text and a character of the
    pattern are compared through their one-to-one lower-case mapping, which
    sends U+0130 to "i". *)
Definition fold_char (c : char) : char :=
  match c with
  | Str.Latin a => Str.Latin (Py.lower_latin a)
  | Str.CapitalIDot => Str.Latin "i"
  | Str.CombiningDot => Str.CombiningDot
  end.

(** The escaped pattern is a literal, matched character by character. *)
Definition literal_at (ignorecase : bool) (pat t : str) (i : nat) : bool :=
  let cand := Str.substring i (List.length pat) t in
  if ignorecase then Str.eqb (map fold_char cand) (map fold_char pat)
  else Str.eqb cand pat.

(** Whether [r'\b' + re.escape(pat) + r'\b'] matches [t] at position [i]. *)
Definition match_at (ignorecase : bool) (pat t : str) (i : nat) : bool :=
  at_boundary t i && literal_at ignorecase pat t i
  && at_boundary t (i + List.length pat).

(** The scan of [re.finditer]: positions are tried from left to right, and
    after a match the search resumes at its end, so [skip] positions covered
    by the last match are passed over.  [k] counts the positions left. *)
Fixpoint scan (ignorecase : bool) (pat t : str) (k pos skip : nat)
  : list (nat * nat) :=
  match k with
  | 0 => []
  | S k' =>
      match skip with
      | S skip' => scan ignorecase pat t k' (S pos) skip'
      | 0 =>
          if match_at ignorecase pat t pos
          then (pos, pos + List.length pat)
               :: scan ignorecase pat t k' (S pos) (List.length pat - 1)
          else scan ignorecase pat t k' (S pos) 0
      end
  end.

(** [[(m.start(), m.end()) for m in
      re.finditer(r'\b' + re.escape(pat) + r'\b', t, flags)]]. *)
Definition finditer (ignorecase : bool) (pat t : str) : list (nat * nat) :=
  scan ignorecase pat t (S (List.length t)) 0 0.

End Re.
(* ================================================================== *)
(** ** What spaCy hands to the extractors *)
(* ================================================================== *)

Module Spacy.

(** A named entity: [ent.text] and [ent.label_]. *)
Record Ent : Type := mkEnt { ent_text : str; label_ : str }.

(** A token: [token.i], [token.text], [token.lemma_], [token.pos_],
    [token.dep_] and the index of [token.head] (the root is its own head). *)
Record Token : Type := mkToken {
  tok_i : nat;
  tok_text : str;
  lemma_ : str;
  pos_ : str;
  dep_ : str;
  head_i : nat
}.

(** A noun chunk: the token range [chunk.start, chunk.end) and [chunk.text]. *)
Record Chunk : Type := mkChunk {
  chunk_start : nat;
  chunk_end : nat;
  chunk_text : str
}.

(** One result of [matcher(doc)], resolved as the code reads it: the label
    [nlp.vocab.strings[match_id]] and the text of [doc[start:end]]. *)
Record Match : Type := mkMatch { match_label : str; span_text : str }.

Record Doc : Type := mkDoc {
  tokens : list Token;
  ents : list Ent;
  noun_chunks : list Chunk
}.

(** [token.head]. *)
Definition head (doc : Doc) (token : Token) : Token :=
  nth (head_i token) (tokens doc) token.

(** [token.children]: the other tokens whose head is [token], in document
    order. *)
Definition children (doc : Doc) (token : Token) : list Token :=
  filter (fun t => (head_i t =? tok_i token)%nat
                   && negb (tok_i t =? tok_i token)%nat)
         (tokens doc).

(** [token in chunk]. *)
Definition in_chunk (token : Token) (chunk : Chunk) : bool :=
  ((chunk_start chunk <=? tok_i token) && (tok_i token <? chunk_end chunk))%nat.

End Spacy.

(* ================================================================== *)
(** ** The keyword-centric variant (Grounding-extraction-spacy+pattern.py) *)
(* ================================================================== *)

Module GroundingEventExtractor.
Import Py.

(** [self.nlp]: the loaded pipeline, or [None] when loading failed. *)
Definition Nlp : Type := option (str -> Spacy.Doc).

Definition trigger_patterns : list str :=
  [ "grounded"; "grounding"; "ran aground"; "struck";
    "hit"; "collided"; "beached"; "stranded";
    "stuck"; "lodged"; "foundered"; "aground" ].

Definition event_type_patterns : dict (list str) :=
  [ ("grounding", ["grounding"; "grounded"; "ran aground"; "aground"]);
    ("collision", ["struck"; "hit"; "collided"; "collision"]);
    ("stranding", ["stranded"; "beached"; "stuck"; "lodged"]);
    ("accident", ["accident"; "incident"; "casualty"; "mishap"]) ].

Definition argument_patterns : dict (list str) :=
  [ ("vessel",
     [ "ship"; "vessel"; "tanker"; "cargo ship"; "container ship";
       "bulk carrier"; "cruise ship"; "ferry"; "boat"; "MV"; "MT"; "MS" ]);
    ("location",
     [ "reef"; "rock"; "shoal"; "sandbar"; "beach"; "coast";
       "harbor"; "port"; "channel"; "strait"; "bay"; "island";
       "waters"; "sea"; "ocean" ]);
    ("cause",
     [ "weather"; "storm"; "fog"; "wind"; "wave"; "current";
       "navigation error"; "mechanical failure"; "engine failure";
       "steering failure"; "human error"; "poor visibility" ]);
    ("time",
     [ "morning"; "afternoon"; "evening"; "night"; "dawn"; "dusk";
       "Monday"; "Tuesday"; "Wednesday"; "Thursday"; "Friday"; "Saturday";
       "Sunday";
       "January"; "February"; "March"; "April"; "May"; "June";
       "July"; "August"; "September"; "October"; "November"; "December" ]);
    ("damage",
     [ "damage"; "breach"; "hole"; "crack"; "oil spill"; "pollution";
       "leak"; "flooding"; "listing"; "capsized" ]);
    ("response",
     [ "rescue"; "salvage"; "tow"; "refloat"; "evacuate";
       "Coast Guard"; "emergency"; "response"; "assist" ]) ].

(** A trigger match [(keyword, start, end)]. *)
Definition TriggerMatch : Type := (str * nat * nat)%type.

Definition extract_trigger_words (text : str) : list TriggerMatch :=
  let text_lower := lower text in
  flat_map
    (fun pattern =>
       map (fun m => (pattern, fst m, snd m))
           (Re.finditer false pattern text_lower))
    trigger_patterns.

(** The body of the two nested loops of [extract_event_type]. *)
Definition score_trigger (trigger : TriggerMatch) (type_scores : dict nat)
  : M (dict nat) :=
  let '(trigger, _, _) := trigger in
  for_each event_type_patterns
    (fun entry type_scores =>
       let '(event_type, patterns) := entry in
       if str_in trigger patterns
       then n <- dict_item type_scores event_type ;;
            Ok (dict_set type_scores event_type (n + 1))
       else Ok type_scores)
    type_scores.

Definition extract_event_type (text : str) (triggers : list TriggerMatch)
  : M str :=
  match triggers with
  | [] => Ok "unknown"
  | _ =>
      let type_scores :=
        map (fun entry => (fst entry, 0)) event_type_patterns in
      type_scores <- for_each triggers score_trigger type_scores ;;
      max_type <- max_key type_scores ;;
      score <- dict_item type_scores max_type ;;
      Ok (if (0 <? score)%nat then max_type else "grounding")
  end.

(** [arguments[arg_type].append(value)]. *)
Definition append_to (arguments : dict (list str)) (arg_type value : str)
  : M (dict (list str)) :=
  values <- dict_item arguments arg_type ;;
  Ok (dict_set arguments arg_type (values ++ [value])).

(** Step 1 of [extract_arguments]: keyword matches. *)
Definition keyword_step (text : str) (arguments : dict (list str))
  : M (dict (list str)) :=
  let text_lower := lower text in
  for_each argument_patterns
    (fun entry arguments =>
       let '(arg_type, patterns) := entry in
       for_each patterns
         (fun pattern arguments =>
            if contains (lower pattern) text_lower
            then for_each (Re.finditer true pattern text_lower)
                   (fun m arguments =>
                      append_to arguments arg_type (slice text (fst m) (snd m)))
                   arguments
            else Ok arguments)
         arguments)
    arguments.

(** Step 2: one named entity. *)
Definition ner_step (ent : Spacy.Ent) (arguments : dict (list str))
  : M (dict (list str)) :=
  if str_in (Spacy.label_ ent) ["GPE"; "LOC"; "FAC"]
  then append_to arguments "location" (Spacy.ent_text ent)
  else if str_in (Spacy.label_ ent) ["DATE"; "TIME"]
  then append_to arguments "time" (Spacy.ent_text ent)
  else if str_in (Spacy.label_ ent) ["ORG"]
  then if existsb (fun keyword => contains keyword (lower (Spacy.ent_text ent)))
                  ["guard"; "rescue"; "maritime"]
       then append_to arguments "response" (Spacy.ent_text ent)
       else append_to arguments "vessel" (Spacy.ent_text ent)
  else Ok arguments.

(** Step 3: one token; proper-noun subjects of a trigger word. *)
Definition dependency_step (doc : Spacy.Doc) (token : Spacy.Token)
                           (arguments : dict (list str))
  : M (dict (list str)) :=
  if Str.eqb (Spacy.pos_ token) "PROPN"
     && str_in (Spacy.dep_ token) ["nsubj"; "nsubjpass"]
  then if existsb
            (fun trigger =>
               contains trigger (lower (Spacy.tok_text (Spacy.head doc token))))
            trigger_patterns
       then append_to arguments "vessel" (Spacy.tok_text token)
       else Ok arguments
  else Ok arguments.

(** Step 4: one category is deduplicated. *)
Definition dedup_step (arg_type : str) (arguments : dict (list str))
  : M (dict (list str)) :=
  values <- dict_item arguments arg_type ;;
  Ok (dict_set arguments arg_type (list_set values)).

Definition extract_arguments (nlp : Nlp) (text : str)
  : M (dict (list str)) :=
  match nlp with
  | None => Ok []
  | Some nlp =>
      let doc := nlp text in
      let arguments := map (fun entry => (fst entry, [])) argument_patterns in
      arguments <- keyword_step text arguments ;;
      arguments <- for_each (Spacy.ents doc) ner_step arguments ;;
      arguments <-
        for_each (Spacy.tokens doc) (dependency_step doc) arguments ;;
      arguments <- for_each (keys arguments) dedup_step arguments ;;
      Ok arguments
  end.

(** The dictionary returned by [extract]; its five keys are literals. *)
Record ExtractionResult : Type := mkResult {
  text : str;
  trigger_words : list str;
  event_type : str;
  arguments : dict (list str);
  trigger_positions : list TriggerMatch
}.

Definition extract (nlp : Nlp) (text : str) : M ExtractionResult :=
  let triggers := extract_trigger_words text in
  event_type <- extract_event_type text triggers ;;
  arguments <- extract_arguments nlp text ;;
  Ok {| text := text;
        trigger_words := map (fun t => fst (fst t)) triggers;
        event_type := event_type;
        arguments := arguments;
        trigger_positions := triggers |}.

End GroundingEventExtractor.

(* ================================================================== *)
(** ** The matcher-centric variant (Grounding-extraction-spacy.py) *)
(* ================================================================== *)

Module SpacyGroundingExtractor.
Import Py.

(** What [__init__] sets when the model loads: [self.nlp] and
    [self.matcher] with the patterns of [_init_patterns] added. *)
Record Loaded : Type := mkLoaded {
  nlp : str -> Spacy.Doc;
  matcher : Spacy.Doc -> list Spacy.Match
}.

(** The extractor: [None] when [self.nlp] is [None]. *)
Definition Self : Type := option Loaded.

(** The local dictionary [extracted] of [extract_with_dependency]. *)
Record DepResults : Type := mkDep {
  dep_vessels : list str;
  dep_locations : list str;
  dep_causes : list str;
  dep_times : list str;
  dep_damages : list str;
  dep_responses : list str
}.

(** The local dictionary [extracted] of [extract_with_ner]. *)
Record NerResults : Type := mkNer {
  ner_organizations : list str;
  ner_locations : list str;
  ner_times : list str;
  ner_persons : list str
}.

(** The local dictionary [extracted] of [extract_with_matcher]. *)
Record MatcherResults : Type := mkMatcher {
  m_triggers : list str;
  m_vessels : list str;
  m_locations : list str;
  m_causes : list str;
  m_damages : list str;
  m_responses : list str
}.

Definition _get_noun_phrase (doc : Spacy.Doc) (token : Spacy.Token) : str :=
  match find (Spacy.in_chunk token) (Spacy.noun_chunks doc) with
  | Some chunk => Spacy.chunk_text chunk
  | None => Spacy.tok_text token
  end.

(** [if phrase:] on a string. *)
Definition truthy (phrase : str) : bool := negb (Str.eqb phrase "").

Definition trigger_verbs : list str :=
  [ "grounded"; "grounding"; "struck"; "hit"; "collided";
    "beached"; "stranded"; "stuck"; "ran" ].

(** The noun phrases of the children of [token] whose dependency label is in
    [labels], empty phrases left out. *)
Definition phrases_of_children (doc : Spacy.Doc) (labels : list str)
                               (token : Spacy.Token) : list str :=
  filter truthy
    (map (_get_noun_phrase doc)
       (filter (fun child => str_in (Spacy.dep_ child) labels)
               (Spacy.children doc token))).

(** The body of the loop over tokens in [extract_with_dependency]. *)
Definition dependency_token (doc : Spacy.Doc) (extracted : DepResults)
                            (token : Spacy.Token) : DepResults :=
  let extracted :=
    if str_in (Spacy.lemma_ token) trigger_verbs
       || str_in (lower (Spacy.tok_text token)) trigger_verbs
    then
      {| dep_vessels :=
           dep_vessels extracted
           ++ phrases_of_children doc ["nsubj"; "nsubjpass"] token;
         dep_locations :=
           dep_locations extracted
           ++ flat_map (phrases_of_children doc ["pobj"])
                (filter (fun child => Str.eqb (Spacy.dep_ child) "prep")
                        (Spacy.children doc token));
         dep_causes := dep_causes extracted;
         dep_times := dep_times extracted;
         dep_damages := dep_damages extracted;
         dep_responses := dep_responses extracted |}
    else extracted in
  if str_in (lower (Spacy.tok_text token)) ["due"; "caused"; "because"]
  then
    {| dep_vessels := dep_vessels extracted;
       dep_locations := dep_locations extracted;
       dep_causes :=
         dep_causes extracted
         ++ phrases_of_children doc ["pobj"; "agent"] token;
       dep_times := dep_times extracted;
       dep_damages := dep_damages extracted;
       dep_responses := dep_responses extracted |}
  else extracted.

Definition extract_with_dependency (doc : Spacy.Doc) : DepResults :=
  fold_left (dependency_token doc) (Spacy.tokens doc)
    (mkDep [] [] [] [] [] []).

(** The body of the loop over entities in [extract_with_ner]. *)
Definition ner_entity (extracted : NerResults) (ent : Spacy.Ent)
  : NerResults :=
  let label := Spacy.label_ ent in
  let text := Spacy.ent_text ent in
  if Str.eqb label "ORG" then
    {| ner_organizations := ner_organizations extracted ++ [text];
       ner_locations := ner_locations extracted;
       ner_times := ner_times extracted;
       ner_persons := ner_persons extracted |}
  else if str_in label ["GPE"; "LOC"; "FAC"] then
    {| ner_organizations := ner_organizations extracted;
       ner_locations := ner_locations extracted ++ [text];
       ner_times := ner_times extracted;
       ner_persons := ner_persons extracted |}
  else if str_in label ["DATE"; "TIME"] then
    {| ner_organizations := ner_organizations extracted;
       ner_locations := ner_locations extracted;
       ner_times := ner_times extracted ++ [text];
       ner_persons := ner_persons extracted |}
  else if Str.eqb label "PERSON" then
    {| ner_organizations := ner_organizations extracted;
       ner_locations := ner_locations extracted;
       ner_times := ner_times extracted;
       ner_persons := ner_persons extracted ++ [text] |}
  else extracted.

Definition extract_with_ner (doc : Spacy.Doc) : NerResults :=
  fold_left ner_entity (Spacy.ents doc) (mkNer [] [] [] []).

(** The body of the loop over matches in [extract_with_matcher]. *)
Definition matcher_match (extracted : MatcherResults) (m : Spacy.Match)
  : MatcherResults :=
  let match_label := Spacy.match_label m in
  let span := Spacy.span_text m in
  let '(mkMatcher tr ve lo ca da re) := extracted in
  if Str.eqb match_label "TRIGGER"
  then mkMatcher (tr ++ [span]) ve lo ca da re
  else if Str.eqb match_label "VESSEL"
  then mkMatcher tr (ve ++ [span]) lo ca da re
  else if Str.eqb match_label "LOCATION"
  then mkMatcher tr ve (lo ++ [span]) ca da re
  else if Str.eqb match_label "CAUSE"
  then mkMatcher tr ve lo (ca ++ [span]) da re
  else if Str.eqb match_label "DAMAGE"
  then mkMatcher tr ve lo ca (da ++ [span]) re
  else if Str.eqb match_label "RESPONSE"
  then mkMatcher tr ve lo ca da (re ++ [span])
  else extracted.

Definition extract_with_matcher (self : Loaded) (doc : Spacy.Doc)
  : MatcherResults :=
  fold_left matcher_match (matcher self doc) (mkMatcher [] [] [] [] [] []).

Definition _determine_event_type (triggers : list str) : str :=
  match triggers with
  | [] => "unknown"
  | _ =>
      let triggers_lower := map lower triggers in
      if existsb (fun t => str_in t triggers_lower)
                 ["grounding"; "grounded"; "ran aground"]
      then "grounding"
      else if existsb (fun t => str_in t triggers_lower)
                      ["struck"; "hit"; "collided"]
      then "collision_grounding"
      else if existsb (fun t => str_in t triggers_lower)
                      ["stranded"; "beached"; "stuck"]
      then "stranding"
      else "marine_accident"
  end.

(** The test that lets an organization into the vessels. *)
Definition is_ship_org (org : str) : bool :=
  existsb (fun ship_word => contains ship_word (lower org))
          ["ship"; "vessel"; "tanker"; "ferry"; "MV"; "MT"; "MS"].

(** The value of the key ["linguistic_features"]. *)
Record LinguisticFeatures : Type := mkFeatures {
  pos_tags : list (str * str);
  dependencies : list (str * str * str);
  entities : list (str * str)
}.

(** The dictionary [final_results]; the value of ["arguments"] is kept as a
    dictionary. *)
Record FinalResults : Type := mkFinal {
  text : str;
  trigger_words : list str;
  event_type : str;
  arguments : dict (list str);
  linguistic_features : LinguisticFeatures
}.

(** What [extract] returns: the empty dictionary or [final_results]. *)
Inductive Output : Type :=
| EmptyDict
| Results (final_results : FinalResults).

Definition extract (self : Self) (text : str) : Output :=
  match self with
  | None => EmptyDict
  | Some self =>
      let doc := nlp self text in
      let matcher_results := extract_with_matcher self doc in
      let ner_results := extract_with_ner doc in
      let dep_results := extract_with_dependency doc in
      Results
        {| text :=
             if (200 <? List.length text)%nat
             then (Str.substring 0 200 text ++ "...")%list
             else text;
           trigger_words := list_set (m_triggers matcher_results);
           event_type := _determine_event_type (m_triggers matcher_results);
           arguments :=
             [ ("vessels",
                list_set
                  (m_vessels matcher_results
                   ++ dep_vessels dep_results
                   ++ filter is_ship_org (ner_organizations ner_results)));
               ("locations",
                list_set (m_locations matcher_results
                          ++ ner_locations ner_results
                          ++ dep_locations dep_results));
               ("times",
                list_set (ner_times ner_results ++ dep_times dep_results));
               ("causes",
                list_set (m_causes matcher_results ++ dep_causes dep_results));
               ("damages",
                list_set
                  (m_damages matcher_results ++ dep_damages dep_results));
               ("responses",
                list_set (m_responses matcher_results
                          ++ dep_responses dep_results));
               ("persons", ner_persons ner_results) ];
           linguistic_features :=
             {| pos_tags :=
                  firstn 10
                    (map (fun token => (Spacy.tok_text token, Spacy.pos_ token))
                         (Spacy.tokens doc));
                dependencies :=
                  firstn 10
                    (map (fun token =>
                            (Spacy.tok_text token, Spacy.dep_ token,
                             Spacy.tok_text (Spacy.head doc token)))
                       (filter (fun token =>
                                  negb (Str.eqb (Spacy.dep_ token) "punct"))
                               (Spacy.tokens doc)));
                entities :=
                  map (fun ent => (Spacy.ent_text ent, Spacy.label_ ent))
                      (Spacy.ents doc) |} |}
  end.

End SpacyGroundingExtractor.

(* ================================================================== *)
(** ** Vocabulary of the properties *)
(* ================================================================== *)

Module Spec.

(** The character just before offset [i], when there is one. *)
Definition char_before (t : str) (i : nat) : option char :=
  match i with
  | 0 => None
  | S j => Str.get j t
  end.

(** No character, or a character outside [\w]. *)
Definition not_word (c : option char) : Prop :=
  match c with
  | Some c => Py.is_word c = false
  | None => True
  end.

(** [text] holds [kw] between the offsets [s] and [e], up to case, as a
    whole word: the characters around the occurrence are not word
    characters. *)
Definition whole_word_at (kw text : str) (s e : nat) : Prop :=
  e = s + List.length kw
  /\ e <= List.length text
  /\ Py.lower (Py.slice text s e) = Py.lower kw
  /\ not_word (char_before text s)
  /\ not_word (Str.get e text).

(** [t] holds exactly [kw] between the offsets [s] and [e], as a whole
    word. *)
Definition exact_word_at (kw t : str) (s e : nat) : Prop :=
  e = s + List.length kw
  /\ e <= List.length t
  /\ Py.slice t s e = kw
  /\ not_word (char_before t s)
  /\ not_word (Str.get e t).

(** The offset in [text.lower()] of what is at offset [s] in [text]. *)
Definition lowered_offset (text : str) (s : nat) : nat :=
  List.length (Py.lower (firstn s text)).

(** A text without U+0130. *)
Definition plain (text : str) : Prop := ~ In Str.CapitalIDot text.

(** A string of code points below 256. *)
Definition latin_only (s : str) : bool :=
  forallb (fun c => match c with Str.Latin _ => true | _ => false end) s.

(** A string whose last character is "i". *)
Fixpoint ends_with_i (s : str) : bool :=
  match s with
  | [] => false
  | c :: s' =>
      match s' with
      | [] => Str.char_eqb c (Str.Latin "i")
      | _ :: _ => ends_with_i s'
      end
  end.

(** Two whole-word occurrences of [pat] cannot overlap at distance [d]:
    either [pat] shifted by [d] disagrees with itself, or the shifted start
    falls between two word characters of [pat]. *)
Definition shift_ok (pat : str) (d : nat) : bool :=
  negb (Str.eqb (Str.substring d (List.length pat - d) pat)
                   (Str.substring 0 (List.length pat - d) pat))
  || (Re.word_at pat (d - 1) && Re.word_at pat d).

Definition self_disjoint (pat : str) : bool :=
  forallb (shift_ok pat) (seq 1 (List.length pat - 1)).

(** A keyword that starts and ends with a word character. *)
Definition word_ended (pat : str) : bool :=
  Re.word_at pat 0 && Re.word_at pat (List.length pat - 1).

(** How many of [triggers] carry a keyword of [patterns]. *)
Definition count_for (patterns : list str)
                     (triggers : list GroundingEventExtractor.TriggerMatch)
  : nat :=
  List.length (filter (fun t => Py.str_in (fst (fst t)) patterns) triggers).

(** The count of every declared type, in declaration order. *)
Definition type_counts (triggers : list GroundingEventExtractor.TriggerMatch)
  : Py.dict nat :=
  map (fun entry => (fst entry, count_for (snd entry) triggers))
      GroundingEventExtractor.event_type_patterns.

(** [T] is the first entry of [scores] with the highest score: entries
    before it score strictly less, entries after it score no more. *)
Definition first_max (scores : Py.dict nat) (T : str) : Prop :=
  exists before n after,
    scores = before ++ (T, n) :: after
    /\ (forall p, In p before -> snd p < n)
    /\ (forall p, In p after -> snd p <= n).

(** The keyword lists that [_determine_event_type] tests, in the order of
    its branches. *)
Definition grounding_words : list str :=
  ["grounding"; "grounded"; "ran aground"].
Definition collision_words : list str := ["struck"; "hit"; "collided"].
Definition stranding_words : list str := ["stranded"; "beached"; "stuck"].

(** How many of the trigger strings are, lower-cased, in [words]. *)
Definition count_lower (words : list str) (triggers : list str) : nat :=
  List.length (filter (fun t => Py.str_in (Py.lower t) words) triggers).

(** The declared argument categories of the keyword-centric variant. *)
Definition categories : list str :=
  Py.keys GroundingEventExtractor.argument_patterns.

(** The dictionary that binds every declared category [k] to [f k]. *)
Definition args_of (f : str -> list str) : Py.dict (list str) :=
  map (fun k => (k, f k)) categories.

(** What the keyword search yields for one keyword: the slices of the text
    at its whole-word matches. *)
Definition keyword_matches (text pattern : str) : list str :=
  if Py.contains (Py.lower pattern) (Py.lower text)
  then map (fun m => Py.slice text (fst m) (snd m))
           (Re.finditer true pattern (Py.lower text))
  else [].

(** The strings of the keyword search for category [c]. *)
Definition keyword_strings (text c : str) : list str :=
  match Py.dict_get GroundingEventExtractor.argument_patterns c with
  | Some patterns => flat_map (keyword_matches text) patterns
  | None => []
  end.

(** The category the keyword-centric variant gives to a named entity;
    [None] when the entity is left out. *)
Definition ner_category (ent : Spacy.Ent) : option str :=
  let label := Spacy.label_ ent in
  if Py.str_in label ["GPE"; "LOC"; "FAC"] then Some "location"
  else if Py.str_in label ["DATE"; "TIME"] then Some "time"
  else if Str.eqb label "ORG" then
    if Py.contains "guard" (Py.lower (Spacy.ent_text ent))
       || Py.contains "rescue" (Py.lower (Spacy.ent_text ent))
       || Py.contains "maritime" (Py.lower (Spacy.ent_text ent))
    then Some "response" else Some "vessel"
  else None.

Definition has_category (c : str) (ent : Spacy.Ent) : bool :=
  match ner_category ent with
  | Some c' => Str.eqb c c'
  | None => false
  end.

(** The strings of the entity classifier for category [c]. *)
Definition ner_strings (doc : Spacy.Doc) (c : str) : list str :=
  map Spacy.ent_text (filter (has_category c) (Spacy.ents doc)).

(** A proper-noun subject whose head's text contains a trigger keyword. *)
Definition is_trigger_subject (doc : Spacy.Doc) (token : Spacy.Token) : bool :=
  Str.eqb (Spacy.pos_ token) "PROPN"
  && Py.str_in (Spacy.dep_ token) ["nsubj"; "nsubjpass"]
  && existsb
       (fun trigger =>
          Py.contains trigger
            (Py.lower (Spacy.tok_text (Spacy.head doc token))))
       GroundingEventExtractor.trigger_patterns.

(** The strings of the dependency step for category [c]: subjects go to
    the vessels, nothing goes elsewhere. *)
Definition dep_strings (doc : Spacy.Doc) (c : str) : list str :=
  if Str.eqb c "vessel"
  then map Spacy.tok_text (filter (is_trigger_subject doc) (Spacy.tokens doc))
  else [].

(** The texts of the entities of [doc] whose label is one of [labels], in
    document order. *)
Definition with_label (labels : list str) (doc : Spacy.Doc) : list str :=
  map Spacy.ent_text
      (filter (fun ent => Py.str_in (Spacy.label_ ent) labels)
              (Spacy.ents doc)).

(** The lower-cased organization name contains one of the four lower-case
    ship words. *)
Definition names_ship (org : str) : bool :=
  Py.contains "ship" (Py.lower org) || Py.contains "vessel" (Py.lower org)
  || Py.contains "tanker" (Py.lower org) || Py.contains "ferry" (Py.lower org).

(** *** Sample inputs *)

(** A text of 201 characters, and its analysis: one token, no entity. *)
Definition long_text : str := Str.concat "" (repeat "a" 201).

Definition long_text_doc : Spacy.Doc :=
  Spacy.mkDoc [Spacy.mkToken 0 long_text long_text "PROPN" "ROOT" 0] [] [].

(** A pipeline that finds nothing at all. *)
Definition blank : SpacyGroundingExtractor.Loaded :=
  SpacyGroundingExtractor.mkLoaded
    (fun _ => Spacy.mkDoc [] [] []) (fun _ => []).

(** The analysis of "John Smith met John Smith": the person is found
    twice. *)
Definition two_persons_doc : Spacy.Doc :=
  Spacy.mkDoc
    [ Spacy.mkToken 0 "John" "John" "PROPN" "compound" 1;
      Spacy.mkToken 1 "Smith" "Smith" "PROPN" "nsubj" 2;
      Spacy.mkToken 2 "met" "meet" "VERB" "ROOT" 2;
      Spacy.mkToken 3 "John" "John" "PROPN" "compound" 4;
      Spacy.mkToken 4 "Smith" "Smith" "PROPN" "dobj" 2 ]
    [ Spacy.mkEnt "John Smith" "PERSON"; Spacy.mkEnt "John Smith" "PERSON" ]
    [ Spacy.mkChunk 0 2 "John Smith"; Spacy.mkChunk 3 5 "John Smith" ].

(** The analysis of "John Smith called the Philippine Coast Guard", and
    what the matcher of the matcher-centric variant finds in it. *)
Definition coast_guard_doc : Spacy.Doc :=
  Spacy.mkDoc
    [ Spacy.mkToken 0 "John" "John" "PROPN" "compound" 1;
      Spacy.mkToken 1 "Smith" "Smith" "PROPN" "nsubj" 2;
      Spacy.mkToken 2 "called" "call" "VERB" "ROOT" 2;
      Spacy.mkToken 3 "the" "the" "DET" "det" 6;
      Spacy.mkToken 4 "Philippine" "Philippine" "PROPN" "compound" 6;
      Spacy.mkToken 5 "Coast" "Coast" "PROPN" "compound" 6;
      Spacy.mkToken 6 "Guard" "Guard" "PROPN" "dobj" 2 ]
    [ Spacy.mkEnt "John Smith" "PERSON";
      Spacy.mkEnt "Philippine Coast Guard" "ORG" ]
    [ Spacy.mkChunk 0 2 "John Smith";
      Spacy.mkChunk 3 7 "the Philippine Coast Guard" ].

(** The analysis of "The ferry struck rocks near the harbor.". *)
Definition ferry_doc : Spacy.Doc :=
  Spacy.mkDoc
    [ Spacy.mkToken 0 "The" "the" "DET" "det" 1;
      Spacy.mkToken 1 "ferry" "ferry" "NOUN" "nsubj" 2;
      Spacy.mkToken 2 "struck" "strike" "VERB" "ROOT" 2;
      Spacy.mkToken 3 "rocks" "rock" "NOUN" "dobj" 2;
      Spacy.mkToken 4 "near" "near" "ADP" "prep" 2;
      Spacy.mkToken 5 "the" "the" "DET" "det" 6;
      Spacy.mkToken 6 "harbor" "harbor" "NOUN" "pobj" 4;
      Spacy.mkToken 7 "." "." "PUNCT" "punct" 2 ]
    []
    [ Spacy.mkChunk 0 2 "The ferry"; Spacy.mkChunk 3 4 "rocks";
      Spacy.mkChunk 5 7 "the harbor" ].

Definition ferry_matches : list Spacy.Match :=
  [ Spacy.mkMatch "TRIGGER" "struck"; Spacy.mkMatch "LOCATION" "harbor" ].

Definition coast_guard_matches : list Spacy.Match :=
  [ Spacy.mkMatch "LOCATION" "Coast"; Spacy.mkMatch "RESPONSE" "Coast Guard" ].

End Spec.

(* ================================================================== *)
(** ** The drivers: [main] of both scripts *)
(* ================================================================== *)

(** What the drivers need of Python beyond module [Py]. *)
Module PyText.

(** [c.isspace()]: the characters that [str.strip()] removes. *)
Definition is_space (c : char) : bool :=
  match c with
  | Str.Latin a =>
      let n := nat_of_ascii a in
      Py.in_range 9 13 n || Py.in_range 28 32 n || (n =? 133)%nat
      || (n =? 160)%nat
  | _ => false
  end.

(** [s.lstrip()]. *)
Fixpoint lstrip (s : str) : str :=
  match s with
  | [] => []
  | c :: s' => if is_space c then lstrip s' else s
  end.

(** [s.rstrip()]. *)
Fixpoint rstrip (s : str) : str :=
  match s with
  | [] => []
  | c :: s' =>
      match rstrip s' with
      | [] => if is_space c then [] else [c]
      | c' :: r => c :: c' :: r
      end
  end.

(** [s.strip()]. *)
Definition strip (s : str) : str := rstrip (lstrip s).

(** [if s:] on a string. *)
Definition truthy (s : str) : bool := negb (Str.eqb s "").

(** The line feed that joins the lines of the example texts. *)
Definition nl : str := [Str.Latin (ascii_of_nat 10)].

End PyText.

(** [main] of the keyword-centric script.  What it reads is the list of the
    lines that [input] will return; what it does is the list of the results
    it hands to [display_results], and the way it ends. *)
Module GroundingMain.
Import Py GroundingEventExtractor.

Definition test_texts : list str :=
  [ Str.concat PyText.nl
      [ "The cargo ship MV Ever Given ran aground in the Suez Canal on March 23, 2021, ";
        "        blocking the waterway for six days. The grounding was caused by strong winds and ";
        "        poor visibility during a sandstorm. The vessel was successfully refloated by ";
        "        tugboats and the Egyptian authorities." ];
    Str.concat PyText.nl
      [ "A bulk carrier grounded on a reef near the Great Barrier Reef yesterday morning. ";
        "        The vessel suffered hull damage and minor oil leak was reported. Coast Guard ";
        "        dispatched emergency response teams to assess the situation." ];
    Str.concat PyText.nl
      [ "The ferry struck rocks and beached itself near the harbor entrance during ";
        "        heavy fog conditions. All 150 passengers were safely evacuated. Salvage operations ";
        "        are planned for high tide tomorrow." ];
    Str.concat PyText.nl
      [ "Container ship Blue Star collided with a sandbar in Singapore Strait on Monday ";
        "        night due to navigation error. The ship remained stuck for 12 hours before being ";
        "        freed by tugboats. No injuries or pollution reported." ] ].

(** How a run ends: [main] returns, [input] finds no more line, or an
    exception of the extractor escapes. *)
Inductive Ending : Type :=
| Returned
| EOFError
| Raised (e : exn).

Record Run : Type := mkRun {
  displayed : list ExtractionResult;
  ending : Ending
}.

(** [display_results(result)], then the rest of the run. *)
Definition show (result : ExtractionResult) (rest : Run) : Run :=
  {| displayed := result :: displayed rest; ending := ending rest |}.

(** The loop [while True] of [main]. *)
Fixpoint interactive (nlp : Nlp) (inputs : list str) : Run :=
  match inputs with
  | [] => mkRun [] EOFError
  | user_text :: inputs' =>
      if str_in (lower user_text) ["quit"; "exit"; "q"]
      then mkRun [] Returned
      else if PyText.truthy (PyText.strip user_text)
      then match extract nlp user_text with
           | Ok result => show result (interactive nlp inputs')
           | Raise e => mkRun [] (Raised e)
           end
      else interactive nlp inputs'
  end.

(** The loop over the example texts, followed by [rest]. *)
Fixpoint examples (nlp : Nlp) (texts : list str) (rest : Run) : Run :=
  match texts with
  | [] => rest
  | text :: texts' =>
      match extract nlp text with
      | Ok result => show result (examples nlp texts' rest)
      | Raise e => mkRun [] (Raised e)
      end
  end.

Definition main (nlp : Nlp) (inputs : list str) : Run :=
  examples nlp test_texts (interactive nlp inputs).

End GroundingMain.

(** [main] of the matcher-centric script. *)
Module SpacyMain.
Import Py SpacyGroundingExtractor.

Definition test_texts : list str :=
  [ Str.concat PyText.nl
      [ "The cargo ship MV Ever Given ran aground in the Suez Canal on March 23, 2021, ";
        "        blocking the waterway for six days. The grounding was caused by strong winds and ";
        "        poor visibility during a sandstorm. The vessel was successfully refloated by ";
        "        tugboats and the Egyptian authorities." ];
    Str.concat PyText.nl
      [ "A bulk carrier grounded on a reef near the Great Barrier Reef yesterday morning. ";
        "        The vessel suffered hull damage and minor oil leak was reported. Coast Guard ";
        "        dispatched emergency response teams to assess the situation." ];
    Str.concat PyText.nl
      [ "The ferry Blue Star struck rocks and beached itself near Sydney harbor entrance ";
        "        during heavy fog conditions at 3:00 AM. All 150 passengers were safely evacuated ";
        "        by rescue teams. Salvage operations are planned for high tide tomorrow morning." ];
    Str.concat PyText.nl
      [ "Container ship Ever Fortune collided with a sandbar in Singapore Strait on Monday ";
        "        night due to navigation error. The 200-meter vessel remained stuck for 12 hours ";
        "        before being freed by six tugboats. No injuries or pollution reported, but the ";
        "        ship sustained minor hull damage." ] ].

(** The dictionary [json_result] that is printed on request. *)
Record JsonResult : Type := mkJson {
  json_text : str;
  json_trigger_words : list str;
  json_event_type : str;
  json_arguments : dict (list str)
}.

(** What [main] does: it hands a result to [display_results], or prints
    the JSON form of a result. *)
Inductive Event : Type :=
| Displayed (result : FinalResults)
| JsonPrinted (json_result : JsonResult).

Inductive Ending : Type :=
| Returned
| EOFError
| Raised (e : exn).

Record Run : Type := mkRun {
  events : list Event;
  ending : Ending
}.

Definition emit (es : list Event) (rest : Run) : Run :=
  {| events := es ++ events rest; ending := ending rest |}.

Definition json_of (result : FinalResults) : JsonResult :=
  {| json_text := text result;
     json_trigger_words := trigger_words result;
     json_event_type := event_type result;
     json_arguments := arguments result |}.

(** The loop [while True] of [main].  After a result is displayed the next
    line is read as the answer to the JSON question.  [display_results]
    reads [result['text']] first, which the empty dictionary lacks. *)
Fixpoint interactive (self : Loaded) (inputs : list str) : Run :=
  match inputs with
  | [] => mkRun [] EOFError
  | user_text :: inputs' =>
      if str_in (lower user_text) ["quit"; "exit"; "q"]
      then mkRun [] Returned
      else if PyText.truthy (PyText.strip user_text)
      then match extract (Some self) user_text with
           | EmptyDict => mkRun [] (Raised (KeyError "text"))
           | Results result =>
               match inputs' with
               | [] => mkRun [Displayed result] EOFError
               | answer :: inputs'' =>
                   if Str.eqb (lower answer) "y"
                   then emit [Displayed result; JsonPrinted (json_of result)]
                             (interactive self inputs'')
                   else emit [Displayed result] (interactive self inputs'')
               end
           end
      else interactive self inputs'
  end.

Fixpoint examples (self : Loaded) (texts : list str) (rest : Run) : Run :=
  match texts with
  | [] => rest
  | text :: texts' =>
      match extract (Some self) text with
      | EmptyDict => mkRun [] (Raised (KeyError "text"))
      | Results result => emit [Displayed result] (examples self texts' rest)
      end
  end.

(** [main]: without the model it prints how to install it and returns. *)
Definition main (self : Self) (inputs : list str) : Run :=
  match self with
  | None => mkRun [] Returned
  | Some self => examples self test_texts (interactive self inputs)
  end.

End SpacyMain.

(* ================================================================== *)
(** ** Vocabulary of the further properties *)
(* ================================================================== *)

Module Props.

(** A span ends before the next one starts. *)
Definition apart (a b : nat * nat) : Prop := snd a <= fst b.

(** The keyword of the trigger is in no list of [event_type_patterns]. *)
Definition untyped (t : GroundingEventExtractor.TriggerMatch) : Prop :=
  forall entry,
    In entry GroundingEventExtractor.event_type_patterns ->
    Py.str_in (fst (fst t)) (snd entry) = false.

(** The span texts of the matcher hits labelled [label], in order. *)
Definition hits_with (label : str) (hits : list Spacy.Match)
  : list str :=
  map Spacy.span_text
      (filter (fun m => Str.eqb (Spacy.match_label m) label) hits).

(** The test on a token that opens the search for vessels and locations. *)
Definition is_trigger_verb (token : Spacy.Token) : bool :=
  Py.str_in (Spacy.lemma_ token) SpacyGroundingExtractor.trigger_verbs
  || Py.str_in (Py.lower (Spacy.tok_text token))
               SpacyGroundingExtractor.trigger_verbs.

(** The test on a token that opens the search for causes. *)
Definition is_cause_word (token : Spacy.Token) : bool :=
  Py.str_in (Py.lower (Spacy.tok_text token)) ["due"; "caused"; "because"].

(** A line that ends the interactive loop. *)
Definition is_quit (line : str) : bool :=
  Py.str_in (Py.lower line) ["quit"; "exit"; "q"].

(** A line made of white space only. *)
Fixpoint is_blank (line : str) : bool :=
  match line with
  | [] => true
  | c :: line' => PyText.is_space c && is_blank line'
  end.

(** A line the interactive loop runs the extractor on. *)
Definition is_text (line : str) : bool :=
  negb (is_quit line) && negb (is_blank line).

(** The lines read before the first quit word. *)
Fixpoint before_quit (inputs : list str) : list str :=
  match inputs with
  | [] => []
  | line :: inputs' =>
      if is_quit line then [] else line :: before_quit inputs'
  end.

(** In a trace of the matcher-centric driver, every printed JSON comes
    right after the display of the result it is made of. *)
Fixpoint json_follows_display (es : list SpacyMain.Event) : Prop :=
  match es with
  | [] => True
  | SpacyMain.JsonPrinted _ :: _ => False
  | SpacyMain.Displayed r :: SpacyMain.JsonPrinted j :: es' =>
      j = SpacyMain.json_of r /\ json_follows_display es'
  | SpacyMain.Displayed _ :: es' => json_follows_display es'
  end.

End Props.

(* ================================================================== *)
(** ** Facts about strings, lowering and word characters *)
(* ================================================================== *)

Open Scope nat_scope.

Section StringFacts.

Lemma char_eqb_eq (c1 c2 : char) : Str.char_eqb c1 c2 = true <-> c1 = c2.
Proof.
  destruct c1 as [a1| |]; destruct c2 as [a2| |]; simpl;
    try (split; [discriminate|discriminate]); try tauto.
  rewrite Ascii.eqb_eq. split; congruence.
Qed.

Lemma str_eqb_eq (s1 s2 : str) : Str.eqb s1 s2 = true <-> s1 = s2.
Proof.
  revert s2. induction s1 as [|c1 s1 IH]; intros [|c2 s2]; simpl;
    try (split; [discriminate|discriminate]); try tauto.
  rewrite andb_true_iff, char_eqb_eq, IH. split; [intros []|intros [=]];
    now subst.
Qed.

Lemma str_eqb_refl (s : str) : Str.eqb s s = true.
Proof. now apply str_eqb_eq. Qed.

Lemma str_eqb_neq (s1 s2 : str) : Str.eqb s1 s2 = false <-> s1 <> s2.
Proof.
  destruct (Str.eqb s1 s2) eqn:E.
  - apply str_eqb_eq in E. split; [discriminate|contradiction].
  - split; [|reflexivity]. intros _ H. apply str_eqb_eq in H. congruence.
Qed.

Lemma str_eqb_sym (s1 s2 : str) : Str.eqb s1 s2 = Str.eqb s2 s1.
Proof.
  destruct (Str.eqb s2 s1) eqn:E.
  - apply str_eqb_eq in E. subst. apply str_eqb_refl.
  - apply str_eqb_neq. apply str_eqb_neq in E. congruence.
Qed.

Lemma substring_correct1 (s : str) (n m p : nat) :
  p < m -> Str.get p (Str.substring n m s) = Str.get (p + n) s.
Proof.
  intros H. unfold Str.get, Str.substring.
  rewrite nth_error_firstn.
  destruct (p <? m) eqn:E; [|apply Nat.ltb_ge in E; lia].
  rewrite nth_error_skipn. f_equal. lia.
Qed.

Lemma substring_correct2 (s : str) (n m p : nat) :
  m <= p -> Str.get p (Str.substring n m s) = None.
Proof.
  intros H. unfold Str.get, Str.substring.
  apply nth_error_None. rewrite length_firstn. lia.
Qed.

Lemma get_correct (s1 s2 : str) :
  (forall n, Str.get n s1 = Str.get n s2) <-> s1 = s2.
Proof.
  split; [|now intros ->].
  revert s2. induction s1 as [|c1 s1 IH]; intros [|c2 s2] H.
  - reflexivity.
  - specialize (H 0). discriminate.
  - specialize (H 0). discriminate.
  - pose proof (H 0) as H0. injection H0 as ->. f_equal.
    apply IH. intros n. exact (H (S n)).
Qed.

Lemma lower_app (s1 s2 : str) :
  Py.lower (s1 ++ s2) = Py.lower s1 ++ Py.lower s2.
Proof.
  induction s1 as [|c s1 IH]; simpl; [reflexivity|].
  now rewrite IH, app_assoc.
Qed.

Lemma lower_latin_idem (a : ascii) :
  Py.lower_latin (Py.lower_latin a) = Py.lower_latin a.
Proof.
  destruct a as [[] [] [] [] [] [] [] []]; reflexivity.
Qed.

Lemma lower_char_idem (c : char) :
  Py.lower (Py.lower_char c) = Py.lower_char c.
Proof.
  destruct c as [a| |]; simpl; try reflexivity.
  now rewrite lower_latin_idem.
Qed.

Lemma lower_idem (s : str) : Py.lower (Py.lower s) = Py.lower s.
Proof.
  induction s as [|c s IH]; simpl; [reflexivity|].
  now rewrite lower_app, lower_char_idem, IH.
Qed.

(** A character that is no word character is left alone by lowering. *)
Lemma lower_char_nonword (c : char) :
  Py.is_word c = false -> Py.lower_char c = [c].
Proof.
  destruct c as [a| |]; simpl; try reflexivity; try discriminate.
  destruct a as [[] [] [] [] [] [] [] []]; vm_compute;
    (reflexivity || discriminate).
Qed.

Lemma get_append_right (pre s : str) (j : nat) :
  Str.get (List.length pre + j) (pre ++ s) = Str.get j s.
Proof.
  unfold Str.get. induction pre as [|c pre IH]; simpl; [reflexivity|exact IH].
Qed.

Lemma get_append_left (pre s : str) (j : nat) :
  j < List.length pre -> Str.get j (pre ++ s) = Str.get j pre.
Proof.
  intros H. unfold Str.get. now apply nth_error_app1.
Qed.

Lemma get_some_lt (s : str) (i : nat) (c : char) :
  Str.get i s = Some c -> i < List.length s.
Proof.
  intros H. apply nth_error_Some. unfold Str.get in H. congruence.
Qed.

(** A substring that has the asked length agrees with the string position
    by position. *)
Lemma substring_eq_get (t p : str) (i j : nat) :
  Str.substring i (List.length p) t = p ->
  j < List.length p ->
  Str.get (i + j) t = Str.get j p.
Proof.
  intros H Hj.
  transitivity (Str.get j (Str.substring i (List.length p) t));
    [| now rewrite H].
  rewrite substring_correct1 by exact Hj.
  now replace (j + i) with (i + j) by lia.
Qed.

End StringFacts.

Section WordFacts.

Lemma at_boundary_bound (t : str) (i : nat) :
  Re.at_boundary t i = true -> i <= List.length t.
Proof.
  unfold Re.at_boundary, Re.word_at. intros H.
  destruct i as [|j]; [lia|].
  destruct (Str.get j t) as [c|] eqn:E.
  - apply get_some_lt in E. lia.
  - destruct (Str.get (S j) t) as [c|] eqn:E'; [|discriminate].
    apply get_some_lt in E'. lia.
Qed.

End WordFacts.
(* ================================================================== *)
(** ** Facts about the regular-expression scan *)
(* ================================================================== *)

Section ScanFacts.

Variable pat t : str.

Lemma match_at_bound (ic : bool) (i : nat) :
  Re.match_at ic pat t i = true -> i + List.length pat <= List.length t.
Proof.
  unfold Re.match_at. intros H.
  apply andb_true_iff in H as [_ H].
  now apply at_boundary_bound.
Qed.

(** Every reported span is a match, at or after the scan position. *)
Lemma scan_sound (ic : bool) :
  forall k pos skip s e,
    In (s, e) (Re.scan ic pat t k pos skip) ->
    pos <= s /\ Re.match_at ic pat t s = true /\ e = s + List.length pat.
Proof.
  induction k as [|k IH]; intros pos skip s e H; simpl in H; [contradiction|].
  destruct skip as [|skip].
  - destruct (Re.match_at ic pat t pos) eqn:E.
    + destruct H as [H|H].
      * injection H as <- <-. auto.
      * apply IH in H. intuition lia.
    + apply IH in H. intuition lia.
  - apply IH in H. intuition lia.
Qed.

Lemma finditer_sound (ic : bool) (s e : nat) :
  In (s, e) (Re.finditer ic pat t) ->
  Re.match_at ic pat t s = true /\ e = s + List.length pat.
Proof.
  intros H. apply scan_sound in H. tauto.
Qed.

(** When matches cannot overlap, the scan misses none: the positions it
    passes over after a match hold no match. *)
Hypothesis disjoint :
  forall i d, 0 < d < List.length pat ->
              Re.match_at false pat t i = true ->
              Re.match_at false pat t (i + d) = false.

Lemma scan_complete :
  forall k pos skip i,
    (forall j, pos <= j < pos + skip -> Re.match_at false pat t j = false) ->
    pos <= i < pos + k ->
    Re.match_at false pat t i = true ->
    In (i, i + List.length pat) (Re.scan false pat t k pos skip).
Proof.
  induction k as [|k IH]; intros pos skip i Hskip Hi Hm; [lia|].
  simpl. destruct skip as [|skip].
  - destruct (Re.match_at false pat t pos) eqn:E.
    + destruct (Nat.eq_dec i pos) as [->|Hne]; [now left|].
      right. apply IH; [|lia|exact Hm].
      intros j Hj.
      replace j with (pos + (j - pos)) by lia.
      apply disjoint; [lia | exact E].
    + apply IH; [intros j Hj; lia| |exact Hm].
      assert (i <> pos) by congruence. lia.
  - assert (i <> pos).
    { intros ->. rewrite Hskip in Hm by lia. discriminate. }
    apply IH; [|lia|exact Hm].
    intros j Hj. apply Hskip. lia.
Qed.

Lemma finditer_complete (i : nat) :
  Re.match_at false pat t i = true ->
  In (i, i + List.length pat) (Re.finditer false pat t).
Proof.
  intros Hm. apply scan_complete; [intros j Hj; lia| |exact Hm].
  apply match_at_bound in Hm. lia.
Qed.

End ScanFacts.

Section WholeWords.

Lemma not_word_iff (t : str) (i : nat) :
  Spec.not_word (Str.get i t) <-> Re.word_at t i = false.
Proof.
  unfold Spec.not_word, Re.word_at. destruct (Str.get i t); intuition congruence.
Qed.

Lemma word_at_nonempty (p : str) (i : nat) :
  Re.word_at p i = true -> i < List.length p.
Proof.
  unfold Re.word_at. destruct (Str.get i p) eqn:E; [|discriminate].
  intros _. eapply get_some_lt; eassumption.
Qed.

Lemma literal_word_at (p t : str) (i j : nat) :
  Str.substring i (List.length p) t = p ->
  j < List.length p ->
  Re.word_at t (i + j) = Re.word_at p j.
Proof.
  intros H Hj. unfold Re.word_at. now rewrite (substring_eq_get t p i j).
Qed.

Lemma match_at_literal (p t : str) (i : nat) :
  Re.match_at false p t i = true ->
  Re.at_boundary t i = true
  /\ Str.substring i (List.length p) t = p
  /\ Re.at_boundary t (i + List.length p) = true.
Proof.
  unfold Re.match_at, Re.literal_at. intros H.
  apply andb_true_iff in H as [H H3]. apply andb_true_iff in H as [H1 H2].
  apply str_eqb_eq in H2. auto.
Qed.

(** A statically checked keyword has no overlapping whole-word matches. *)
Lemma self_disjoint_no_overlap (p t : str) :
  Spec.self_disjoint p = true ->
  forall i d, 0 < d < List.length p ->
              Re.match_at false p t i = true ->
              Re.match_at false p t (i + d) = false.
Proof.
  intros Hsd i d Hd Hi.
  destruct (Re.match_at false p t (i + d)) eqn:Hid; [exfalso|reflexivity].
  apply match_at_literal in Hi as (_ & Li & _).
  apply match_at_literal in Hid as (Bd & Ld & _).
  unfold Spec.self_disjoint in Hsd. rewrite forallb_forall in Hsd.
  specialize (Hsd d). rewrite in_seq in Hsd.
  assert (Hok : Spec.shift_ok p d = true) by (apply Hsd; lia).
  unfold Spec.shift_ok in Hok. apply orb_true_iff in Hok as [Hne|Hw].
  - apply negb_true_iff in Hne. apply str_eqb_neq in Hne. apply Hne.
    apply get_correct. intros q.
    destruct (Nat.lt_ge_cases q (List.length p - d)) as [Hq|Hq].
    + rewrite !substring_correct1 by exact Hq.
      rewrite <- (substring_eq_get t p i (q + d)) by (exact Li || lia).
      rewrite <- (substring_eq_get t p (i + d) (q + 0)) by (exact Ld || lia).
      f_equal. lia.
    + now rewrite !substring_correct2 by exact Hq.
  - apply andb_true_iff in Hw as [Hw1 Hw2].
    unfold Re.at_boundary in Bd.
    replace (i + d) with (S (i + (d - 1))) in Bd at 1 by lia.
    rewrite (literal_word_at p t i (d - 1)) in Bd by (exact Li || lia).
    rewrite (literal_word_at p t i d) in Bd by (exact Li || lia).
    rewrite Hw1, Hw2 in Bd. discriminate.
Qed.

(** A match of the regular expression is an exact whole-word occurrence
    in the searched string. *)
Lemma match_at_exact_word (kw t : str) (s : nat) :
  Spec.word_ended kw = true ->
  Re.match_at false kw t s = true ->
  Spec.exact_word_at kw t s (s + List.length kw).
Proof.
  intros Hwe Hm.
  pose proof (match_at_bound _ _ _ _ Hm) as Hb.
  apply match_at_literal in Hm as (B1 & L & B2).
  apply andb_true_iff in Hwe as [W0 Wl].
  pose proof (word_at_nonempty _ _ W0) as Hlen.
  unfold Spec.exact_word_at. repeat split.
  - exact Hb.
  - unfold Py.slice.
    now replace (s + List.length kw - s) with (List.length kw) by lia.
  - assert (Ws : Re.word_at t s = true).
    { rewrite <- (Nat.add_0_r s).
      now rewrite (literal_word_at kw _ s 0 L Hlen). }
    destruct s as [|j]; [exact I|]. simpl.
    apply not_word_iff.
    unfold Re.at_boundary in B1. rewrite Ws in B1.
    now destruct (Re.word_at t j).
  - assert (We : Re.word_at t (s + (List.length kw - 1)) = true).
    { rewrite (literal_word_at kw _ s (List.length kw - 1));
        [exact Wl | exact L | lia]. }
    apply not_word_iff.
    unfold Re.at_boundary in B2.
    replace (s + List.length kw) with (S (s + (List.length kw - 1)))
      in * by lia.
    rewrite We in B2.
    now destruct (Re.word_at t (S (s + (List.length kw - 1)))).
Qed.

(** Conversely, an exact whole-word occurrence is a match of the regular
    expression. *)
Lemma exact_word_match_at (kw t : str) (s e : nat) :
  Spec.word_ended kw = true ->
  Spec.exact_word_at kw t s e ->
  Re.match_at false kw t s = true.
Proof.
  intros Hwe (-> & Hb & L & N1 & N2).
  apply andb_true_iff in Hwe as [W0 Wl].
  pose proof (word_at_nonempty _ _ W0) as Hlen.
  unfold Py.slice in L.
  replace (s + List.length kw - s) with (List.length kw) in L by lia.
  unfold Re.match_at, Re.literal_at.
  rewrite L, str_eqb_refl, andb_true_r.
  assert (Ws : Re.word_at t s = true).
  { rewrite <- (Nat.add_0_r s).
    now rewrite (literal_word_at kw _ s 0 L Hlen). }
  assert (We : Re.word_at t (s + (List.length kw - 1)) = true).
  { rewrite (literal_word_at kw _ s (List.length kw - 1));
      [exact Wl | exact L | lia]. }
  apply andb_true_iff. split.
  - unfold Re.at_boundary. rewrite Ws.
    destruct s as [|j]; [reflexivity|].
    simpl in N1. apply not_word_iff in N1.
    now rewrite N1.
  - unfold Re.at_boundary.
    replace (s + List.length kw) with (S (s + (List.length kw - 1)))
      by lia.
    rewrite We.
    replace (S (s + (List.length kw - 1))) with (s + List.length kw)
      by lia.
    apply not_word_iff in N2.
    now rewrite N2.
Qed.

End WholeWords.

(* ================================================================== *)
(** ** Facts about trigger extraction *)
(* ================================================================== *)

Section TriggerFacts.
Import GroundingEventExtractor.

(** Every trigger keyword is lower-case, starts and ends with a word
    character, and cannot overlap itself as a whole word. *)
Lemma trigger_patterns_checked (kw : str) :
  In kw trigger_patterns ->
  Py.lower kw = kw /\ Spec.word_ended kw = true
  /\ Spec.self_disjoint kw = true.
Proof.
  unfold trigger_patterns. simpl.
  intros H; repeat (destruct H as [<-|H]; [now vm_compute|]); contradiction.
Qed.

Lemma in_extract_trigger_words (text kw : str) (s e : nat) :
  In (kw, s, e) (extract_trigger_words text) <->
  In kw trigger_patterns /\ In (s, e) (Re.finditer false kw (Py.lower text)).
Proof.
  unfold extract_trigger_words. rewrite in_flat_map. split.
  - intros (p & Hp & H). apply in_map_iff in H as ([s' e'] & Heq & H).
    simpl in Heq. injection Heq as -> -> ->. auto.
  - intros [Hp H]. exists kw. split; [exact Hp|].
    apply in_map_iff. exists (s, e). auto.
Qed.

(** What is reported is an exact whole-word occurrence of the keyword in
    the lower-cased text, at the reported offsets. *)
Lemma trigger_match_sound (text kw : str) (s e : nat) :
  In (kw, s, e) (extract_trigger_words text) ->
  In kw trigger_patterns /\ Spec.exact_word_at kw (Py.lower text) s e.
Proof.
  intros H. apply in_extract_trigger_words in H as [Hp H].
  split; [exact Hp|].
  apply finditer_sound in H as [Hm ->].
  destruct (trigger_patterns_checked kw Hp) as (_ & Hw & _).
  now apply match_at_exact_word.
Qed.

Lemma trigger_match_complete (text kw : str) (s e : nat) :
  In kw trigger_patterns ->
  Spec.exact_word_at kw (Py.lower text) s e ->
  In (kw, s, e) (extract_trigger_words text).
Proof.
  intros Hp H. apply in_extract_trigger_words. split; [exact Hp|].
  destruct (trigger_patterns_checked kw Hp) as (_ & Hw & Hd).
  pose proof (exact_word_match_at kw _ s e Hw H) as Hm.
  destruct H as (-> & _).
  apply finditer_complete; [|exact Hm].
  now apply self_disjoint_no_overlap.
Qed.

Lemma substring_substring (t : str) (i n a b : nat) :
  a + b <= n ->
  List.length (Str.substring i n t) = n ->
  Str.substring a b (Str.substring i n t) = Str.substring (i + a) b t.
Proof.
  intros Hab Hlen. apply get_correct. intros q.
  destruct (Nat.lt_ge_cases q b) as [Hq|Hq].
  - rewrite !substring_correct1 by lia.
    now replace (q + a + i) with (q + (i + a)) by lia.
  - now rewrite !substring_correct2 by exact Hq.
Qed.

(** An exact whole-word "ran aground" ends with an exact whole-word
    "aground". *)
Lemma ran_aground_aground (t : str) (s e : nat) :
  Spec.exact_word_at "ran aground" t s e ->
  Spec.exact_word_at "aground" t (s + 4) e.
Proof.
  intros (-> & Hb & L & N1 & N2).
  change (List.length "ran aground") with 11 in *.
  unfold Py.slice in L.
  replace (s + 11 - s) with 11 in L by lia.
  unfold Spec.exact_word_at.
  change (List.length "aground") with 7.
  split; [lia|]. split; [exact Hb|]. split; [|split; [|exact N2]].
  - unfold Py.slice.
    replace (s + 11 - (s + 4)) with 7 by lia.
    rewrite <- (substring_substring _ s 11 4 7) by (lia || now rewrite L).
    now rewrite L.
  - replace (s + 4) with (S (s + 3)) by lia.
    unfold Spec.char_before.
    pose proof (substring_eq_get t "ran aground" s 3 L) as G.
    change (List.length "ran aground") with 11 in G.
    specialize (G ltac:(lia)).
    rewrite G. reflexivity.
Qed.

Lemma substring_app_exact (a b c : str) :
  Str.substring (List.length a) (List.length b) (a ++ b ++ c) = b.
Proof.
  unfold Str.substring.
  rewrite skipn_app, skipn_all, Nat.sub_diag. simpl.
  rewrite firstn_app, firstn_all, Nat.sub_diag. simpl.
  apply app_nil_r.
Qed.

(** The last character of a text is the last character of its lowering
    when it is no word character. *)
Lemma lower_last_nonword (pre : str) (c : char) :
  Py.is_word c = false ->
  Str.get (List.length (Py.lower (pre ++ [c])) - 1) (Py.lower (pre ++ [c]))
  = Some c.
Proof.
  intros H. rewrite lower_app. simpl. rewrite (lower_char_nonword c H).
  simpl. rewrite length_app. simpl.
  replace (List.length (Py.lower pre) + 1 - 1)
    with (List.length (Py.lower pre) + 0) by lia.
  now rewrite get_append_right.
Qed.

(** A whole-word occurrence, up to case, in the text is an exact
    whole-word occurrence in the lower-cased text, at the offset the
    lowering of what comes before gives. *)
Lemma whole_word_lowered (kw text : str) (s e : nat) :
  Py.lower kw = kw ->
  Spec.whole_word_at kw text s e ->
  Spec.exact_word_at kw (Py.lower text)
    (Spec.lowered_offset text s)
    (Spec.lowered_offset text s + List.length kw).
Proof.
  intros Hlow (-> & Hb & L & N1 & N2).
  rewrite Hlow in L. unfold Py.slice, Str.substring in L.
  replace (s + List.length kw - s) with (List.length kw) in L by lia.
  unfold Spec.lowered_offset.
  set (pre := firstn s text).
  set (mid := firstn (List.length kw) (skipn s text)) in *.
  set (post := skipn (List.length kw) (skipn s text)).
  assert (Htext : text = pre ++ mid ++ post).
  { unfold pre, mid, post. now rewrite !firstn_skipn. }
  assert (Hpre : List.length pre = s).
  { unfold pre. rewrite length_firstn. lia. }
  assert (Hmid : List.length mid = List.length kw).
  { unfold mid. rewrite length_firstn, length_skipn. lia. }
  assert (Hlt : Py.lower text = Py.lower pre ++ kw ++ Py.lower post).
  { rewrite Htext at 1. now rewrite !lower_app, L. }
  unfold Spec.exact_word_at. split; [reflexivity|]. split; [|split; [|split]].
  - rewrite Hlt, !length_app. lia.
  - unfold Py.slice.
    replace (List.length (Py.lower pre) + List.length kw
             - List.length (Py.lower pre)) with (List.length kw) by lia.
    rewrite Hlt. apply substring_app_exact.
  - destruct (List.length (Py.lower pre)) as [|j] eqn:Hj; [exact I|].
    unfold Spec.char_before.
    destruct s as [|s'].
    { unfold pre in Hj. simpl in Hj. discriminate. }
    simpl in N1.
    assert (Hsplit : exists pre0 c, pre = pre0 ++ [c]
                                    /\ Str.get s' text = Some c).
    { destruct (Str.get s' text) as [c|] eqn:G.
      - exists (firstn s' text), c. split; [|reflexivity].
        unfold pre. unfold Str.get in G.
        clear - G. revert text G.
        induction s' as [|n IH]; intros [|x text] G; simpl in *;
          try discriminate.
        + now injection G as ->.
        + f_equal. now apply IH.
      - unfold Str.get in G. apply nth_error_None in G. lia. }
    destruct Hsplit as (pre0 & c & Hp & G). rewrite G in N1. simpl in N1.
    pose proof (lower_last_nonword pre0 c N1) as Hlast.
    rewrite <- Hp, Hj in Hlast. simpl in Hlast.
    rewrite Nat.sub_0_r in Hlast.
    rewrite Hlt, get_append_left by lia. now rewrite Hlast.
  - rewrite Hlt, app_assoc.
    replace (List.length (Py.lower pre) + List.length kw)
      with (List.length (Py.lower pre ++ kw) + 0)
      by (rewrite length_app; lia).
    rewrite get_append_right.
    assert (Hpost : post = skipn (s + List.length kw) text).
    { unfold post. rewrite skipn_skipn. f_equal. lia. }
    destruct post as [|c post'] eqn:Ep; [exact I|].
    assert (G : Str.get (s + List.length kw) text = Some c).
    { unfold Str.get. rewrite <- (Nat.add_0_r (s + List.length kw)).
      rewrite <- nth_error_skipn, <- Hpost. reflexivity. }
    rewrite G in N2. simpl in N2. simpl.
    now rewrite (lower_char_nonword c N2).
Qed.

End TriggerFacts.

(* ================================================================== *)
(** ** Facts about texts without U+0130 *)
(* ================================================================== *)

Section PlainTexts.

Lemma is_word_lower_latin (a : ascii) :
  Py.is_word (Str.Latin (Py.lower_latin a)) = Py.is_word (Str.Latin a).
Proof.
  destruct a as [[] [] [] [] [] [] [] []]; reflexivity.
Qed.

Lemma is_word_fold (c : char) : Py.is_word (Re.fold_char c) = Py.is_word c.
Proof.
  destruct c as [a| |]; try reflexivity. apply is_word_lower_latin.
Qed.

Lemma fold_char_idem (c : char) :
  Re.fold_char (Re.fold_char c) = Re.fold_char c.
Proof.
  destruct c as [a| |]; try reflexivity. simpl. now rewrite lower_latin_idem.
Qed.

Lemma fold_char_plain (c : char) : Re.fold_char c <> Str.CapitalIDot.
Proof. destruct c; discriminate. Qed.

Lemma map_fold_plain (s : str) : Spec.plain (map Re.fold_char s).
Proof.
  intros H. apply in_map_iff in H as (c & Hc & _).
  now apply fold_char_plain in Hc.
Qed.

(** On a text without U+0130 lowering is the character-wise mapping. *)
Lemma lower_plain (s : str) :
  Spec.plain s -> Py.lower s = map Re.fold_char s.
Proof.
  unfold Spec.plain. induction s as [|c s IH]; intros H; [reflexivity|].
  simpl. rewrite IH by (intros Hin; apply H; now right).
  destruct c as [a| |]; try reflexivity.
  exfalso. apply H. now left.
Qed.


Lemma in_skipn {A : Type} (n : nat) (l : list A) (x : A) :
  In x (skipn n l) -> In x l.
Proof.
  revert l. induction n as [|n IH]; intros [|y l] H; simpl in *; try tauto.
  right. now apply IH.
Qed.

Lemma in_firstn {A : Type} (n : nat) (l : list A) (x : A) :
  In x (firstn n l) -> In x l.
Proof.
  revert l. induction n as [|n IH]; intros [|y l] H; simpl in *; try tauto.
  destruct H as [H|H]; [now left|right; now apply IH].
Qed.

Lemma substring_plain (i n : nat) (t : str) :
  Spec.plain t -> Spec.plain (Str.substring i n t).
Proof.
  intros H Hin. apply H. unfold Str.substring in Hin.
  now apply in_firstn, in_skipn in Hin.
Qed.

Lemma substring_map (f : char -> char) (i n : nat) (t : str) :
  Str.substring i n (map f t) = map f (Str.substring i n t).
Proof.
  unfold Str.substring. now rewrite skipn_map, firstn_map.
Qed.

Lemma get_map (f : char -> char) (i : nat) (t : str) :
  Str.get i (map f t) = option_map f (Str.get i t).
Proof.
  unfold Str.get. apply nth_error_map.
Qed.

Lemma not_word_fold (o : option char) :
  Spec.not_word (option_map Re.fold_char o) -> Spec.not_word o.
Proof.
  destruct o as [c|]; simpl; [|tauto]. now rewrite is_word_fold.
Qed.

Lemma lowered_offset_plain (text : str) (s : nat) :
  Spec.plain text -> s <= List.length text -> Spec.lowered_offset text s = s.
Proof.
  intros Hp Hs. unfold Spec.lowered_offset.
  rewrite lower_plain.
  - rewrite length_map, length_firstn. lia.
  - intros H. apply Hp. now apply in_firstn in H.
Qed.

(** On a text without U+0130, an occurrence in the lower-cased text is an
    occurrence, up to case, in the text, at the same offsets. *)
Lemma whole_word_of_lowered (kw text : str) (s e : nat) :
  Spec.plain text ->
  Spec.whole_word_at kw (Py.lower text) s e ->
  Spec.whole_word_at kw text s e.
Proof.
  intros Hp. rewrite (lower_plain text Hp).
  intros (-> & Hb & L & N1 & N2).
  unfold Spec.whole_word_at. split; [reflexivity|].
  split; [now rewrite length_map in Hb|]. split; [|split].
  - unfold Py.slice in *. rewrite substring_map in L.
    rewrite (lower_plain (map _ _)) in L by apply map_fold_plain.
    rewrite map_map in L.
    rewrite (lower_plain (Str.substring _ _ text))
      by now apply substring_plain.
    rewrite <- L. apply map_ext. intros c. now rewrite fold_char_idem.
  - destruct s as [|j]; [exact I|]. simpl in *.
    rewrite get_map in N1. now apply not_word_fold.
  - rewrite get_map in N2. now apply not_word_fold.
Qed.

Lemma exact_word_up_to_case (kw t : str) (s e : nat) :
  Spec.exact_word_at kw t s e -> Spec.whole_word_at kw t s e.
Proof.
  intros (-> & Hb & L & N1 & N2). unfold Spec.whole_word_at.
  now rewrite L.
Qed.

End PlainTexts.

(* ================================================================== *)
(** ** From the lower-cased text back to the text *)
(* ================================================================== *)

Section LoweredOrigin.

(** A string of code points below 256 that does not end with "i" and
    opens the lower-cased text is the lower case of what opens the text:
    the two code points that U+0130 becomes cannot lie in it, nor at its
    end. *)
Lemma lowered_prefix (kw text : str) :
  Spec.latin_only kw = true ->
  Spec.ends_with_i kw = false ->
  firstn (List.length kw) (Py.lower text) = kw ->
  List.length kw <= List.length text
  /\ Py.lower (firstn (List.length kw) text) = kw.
Proof.
  revert text. induction kw as [|k kw IH]; intros text HL HE H.
  - simpl. split; [lia|reflexivity].
  - destruct text as [|c t]; [discriminate H|].
    simpl in HL. apply andb_true_iff in HL as [Hk HL].
    destruct k as [a| |]; try discriminate Hk.
    assert (HE' : Spec.ends_with_i kw = false)
      by (destruct kw; [reflexivity|exact HE]).
    destruct c as [b| |]; simpl in H.
    + injection H as Hb Hrest. apply IH in Hrest as [Hlen Hlow];
        [|exact HL|exact HE'].
      split; [simpl; lia|]. simpl. now rewrite Hb, Hlow.
    + injection H as Ha Hrest. destruct kw as [|k' kw].
      * subst a. discriminate HE.
      * simpl in Hrest. injection Hrest as Hk' _. subst k'.
        discriminate HL.
    + discriminate H.
Qed.

(** Where the lower-cased text holds such a string, the text holds, at
    the place that offset comes from, a string of the same length whose
    lower case it is. *)
Lemma lowered_match_origin (kw text : str) (s : nat) :
  kw <> [] ->
  Spec.latin_only kw = true ->
  Spec.ends_with_i kw = false ->
  Str.substring s (List.length kw) (Py.lower text) = kw ->
  exists s0,
    Spec.lowered_offset text s0 = s
    /\ s0 + List.length kw <= List.length text
    /\ Py.lower (Str.substring s0 (List.length kw) text) = kw.
Proof.
  intros Hne HL HE. revert s.
  induction text as [|c t IH]; intros s H.
  - unfold Str.substring in H. simpl in H.
    rewrite skipn_nil, firstn_nil in H. now subst kw.
  - destruct s as [|s].
    + exists 0.
      change (firstn (List.length kw) (Py.lower (c :: t)) = kw) in H.
      apply lowered_prefix in H as [Hlen Hlow]; [|exact HL|exact HE].
      split; [reflexivity|]. split; [lia|exact Hlow].
    + assert (Hstep : forall s',
                 Str.substring s' (List.length kw) (Py.lower t) = kw ->
                 exists s0,
                   Spec.lowered_offset (c :: t) s0
                   = List.length (Py.lower_char c) + s'
                   /\ s0 + List.length kw <= List.length (c :: t)
                   /\ Py.lower (Str.substring s0 (List.length kw) (c :: t))
                      = kw).
      { intros s' H'. destruct (IH s' H') as (s0 & Ho & Hb & Hl).
        exists (S s0). split; [|split; [simpl; lia|exact Hl]].
        unfold Spec.lowered_offset in *. simpl firstn. simpl Py.lower.
        rewrite length_app. now rewrite Ho. }
      destruct c as [b| |].
      * apply (Hstep s). exact H.
      * destruct s as [|s].
        -- unfold Str.substring in H. simpl in H.
           destruct kw as [|k kw]; [now contradiction Hne|].
           simpl in H. injection H as Hk _. subst k. discriminate HL.
        -- apply (Hstep s). exact H.
      * apply (Hstep s). exact H.
Qed.

(** The trigger keywords are such strings. *)
Lemma trigger_patterns_latin (kw : str) :
  In kw GroundingEventExtractor.trigger_patterns ->
  kw <> [] /\ Spec.latin_only kw = true /\ Spec.ends_with_i kw = false.
Proof.
  unfold GroundingEventExtractor.trigger_patterns. simpl.
  intros H;
    repeat (destruct H as [<-|H];
            [split; [discriminate|split; reflexivity]|]);
    contradiction.
Qed.

(** Every trigger match comes from a place of the text: its start is the
    offset in the lower-cased text of that place, and the text holds
    there, up to case, the keyword. *)
Lemma trigger_match_origin (text kw : str) (s e : nat) :
  In (kw, s, e) (GroundingEventExtractor.extract_trigger_words text) ->
  exists s0,
    Spec.lowered_offset text s0 = s
    /\ s0 + List.length kw <= List.length text
    /\ Py.lower (Py.slice text s0 (s0 + List.length kw)) = Py.lower kw.
Proof.
  intros H. apply trigger_match_sound in H as [Hp Hw].
  destruct (trigger_patterns_latin kw Hp) as (Hne & HL & HE).
  destruct (trigger_patterns_checked kw Hp) as (Hlow & _).
  destruct Hw as (-> & _ & L & _). unfold Py.slice in L.
  replace (s + List.length kw - s) with (List.length kw) in L by lia.
  destruct (lowered_match_origin kw text s Hne HL HE L) as (s0 & Ho & Hb & Hl).
  exists s0. split; [exact Ho|]. split; [exact Hb|].
  unfold Py.slice.
  replace (s0 + List.length kw - s0) with (List.length kw) by lia.
  now rewrite Hl, Hlow.
Qed.

End LoweredOrigin.
(* ================================================================== *)
(** ** Facts about the event type resolvers *)
(* ================================================================== *)

Section MaxFacts.

(** [max_from] returns the first highest entry of what it has seen and what
    is left. *)
Lemma max_from_first_max :
  forall rest before best n mid,
    (forall p, In p before -> snd p < n) ->
    (forall p, In p mid -> snd p <= n) ->
    Spec.first_max (before ++ (best, n) :: mid ++ rest)
                   (Py.max_from best n rest).
Proof.
  induction rest as [|[k v] rest IH]; intros before best n mid Hb Hm; simpl.
  - rewrite app_nil_r. now exists before, n, mid.
  - destruct (n <? v) eqn:E.
    + apply Nat.ltb_lt in E.
      replace (before ++ (best, n) :: mid ++ (k, v) :: rest)
        with ((before ++ (best, n) :: mid) ++ (k, v) :: [] ++ rest)
        by (now rewrite <- app_assoc).
      apply IH; [|intros p []].
      intros p Hp. apply in_app_or in Hp as [Hp|[<-|Hp]].
      * apply Hb in Hp. lia.
      * simpl. lia.
      * apply Hm in Hp. lia.
    + apply Nat.ltb_ge in E.
      replace (mid ++ (k, v) :: rest) with ((mid ++ [(k, v)]) ++ rest)
        by (now rewrite <- app_assoc).
      apply IH; [exact Hb|].
      intros p Hp. apply in_app_or in Hp as [Hp|[<-|[]]].
      * now apply Hm.
      * simpl. lia.
Qed.

Lemma max_key_first_max (d : Py.dict nat) :
  d <> [] -> exists T, Py.max_key d = Py.Ok T /\ Spec.first_max d T.
Proof.
  destruct d as [|[k v] d]; [congruence|]. intros _.
  exists (Py.max_from k v d). split; [reflexivity|].
  apply (max_from_first_max d [] k v []); intros p [].
Qed.

(** The first highest entry is unique when keys are. *)
Lemma first_max_score (d : Py.dict nat) (T : str) :
  Spec.first_max d T ->
  exists n, In (T, n) d /\ forall p, In p d -> snd p <= n.
Proof.
  intros (before & n & after & -> & Hb & Ha). exists n. split.
  - apply in_or_app. right. now left.
  - intros p Hp. apply in_app_or in Hp as [Hp|[<-|Hp]].
    + apply Hb in Hp. lia.
    + simpl. lia.
    + now apply Ha.
Qed.

End MaxFacts.

Section KeywordEventType.
Import GroundingEventExtractor.

(** 1 when the keyword of the trigger is in [patterns], else 0. *)
Let hit (patterns : list str) (t : TriggerMatch) : nat :=
  if Py.str_in (fst (fst t)) patterns then 1 else 0.

Lemma count_for_cons (patterns : list str) (t : TriggerMatch)
                     (ts : list TriggerMatch) :
  Spec.count_for patterns (t :: ts)
  = hit patterns t + Spec.count_for patterns ts.
Proof.
  unfold Spec.count_for, hit. simpl.
  now destruct (Py.str_in (fst (fst t)) patterns).
Qed.

(** The scores after one trigger: each type whose list holds the keyword
    gains one. *)
Lemma score_trigger_ok (t : TriggerMatch) (a b c e : nat) :
  score_trigger t
    [("grounding", a); ("collision", b); ("stranding", c); ("accident", e)]
  = Py.Ok
      [ ("grounding",
         a + hit ["grounding"; "grounded"; "ran aground"; "aground"] t);
        ("collision", b + hit ["struck"; "hit"; "collided"; "collision"] t);
        ("stranding", c + hit ["stranded"; "beached"; "stuck"; "lodged"] t);
        ("accident",
         e + hit ["accident"; "incident"; "casualty"; "mishap"] t) ].
Proof.
  destruct t as [[kw s0] e0]. unfold score_trigger, hit.
  cbn [event_type_patterns Py.for_each fst snd].
  destruct (Py.str_in kw ["grounding"; "grounded"; "ran aground"; "aground"]);
  destruct (Py.str_in kw ["struck"; "hit"; "collided"; "collision"]);
  destruct (Py.str_in kw ["stranded"; "beached"; "stuck"; "lodged"]);
  destruct (Py.str_in kw ["accident"; "incident"; "casualty"; "mishap"]);
  cbn; rewrite ?Nat.add_0_r; reflexivity.
Qed.

(** The scores after all triggers are the counts. *)
Lemma score_loop_ok (ts : list TriggerMatch) :
  forall a b c e,
    Py.for_each ts score_trigger
      [("grounding", a); ("collision", b); ("stranding", c); ("accident", e)]
    = Py.Ok
        [ ("grounding",
           a + Spec.count_for
                 ["grounding"; "grounded"; "ran aground"; "aground"] ts);
          ("collision",
           b + Spec.count_for ["struck"; "hit"; "collided"; "collision"] ts);
          ("stranding",
           c + Spec.count_for ["stranded"; "beached"; "stuck"; "lodged"] ts);
          ("accident",
           e + Spec.count_for
                 ["accident"; "incident"; "casualty"; "mishap"] ts) ].
Proof.
  induction ts as [|t ts IH]; intros a b c e.
  - unfold Spec.count_for. simpl. now rewrite !Nat.add_0_r.
  - cbn [Py.for_each]. rewrite score_trigger_ok. cbn [Py.bind].
    rewrite IH, !count_for_cons, !Nat.add_assoc. reflexivity.
Qed.

Lemma type_scores_ok (ts : list TriggerMatch) :
  Py.for_each ts score_trigger
    (map (fun entry => (fst entry, 0)) event_type_patterns)
  = Py.Ok (Spec.type_counts ts).
Proof.
  exact (score_loop_ok ts 0 0 0 0).
Qed.

(** On a non-empty trigger list the resolver returns the first type with
    the highest count. *)
Lemma extract_event_type_first_max (text : str) (ts : list TriggerMatch) :
  ts <> [] ->
  exists T, extract_event_type text ts = Py.Ok T
            /\ Spec.first_max (Spec.type_counts ts) T.
Proof.
  intros Hne. destruct ts as [|t0 ts0]; [congruence|].
  unfold extract_event_type. rewrite type_scores_ok. cbn [Py.bind].
  remember (t0 :: ts0) as ts eqn:Hts. clear Hts.
  destruct (max_key_first_max (Spec.type_counts ts)) as (T & HT & Hmax);
    [discriminate|].
  rewrite HT. cbn [Py.bind].
  destruct Hmax as (before & n & after & Heq & Hb & Ha).
  assert (Hget : Py.dict_item (Spec.type_counts ts) T = Py.Ok n
                 /\ (n = 0 -> T = "grounding")).
  { unfold Spec.type_counts in *. cbn [map event_type_patterns fst snd] in *.
    destruct before as [|p1 [|p2 [|p3 [|p4 before]]]];
      simpl in Heq; inversion Heq; subst; clear Heq;
      try (split; [reflexivity|]).
    - reflexivity.
    - intros Hz. specialize (Hb _ (or_introl eq_refl)). simpl in Hb. lia.
    - intros Hz. specialize (Hb _ (or_introl eq_refl)). simpl in Hb. lia.
    - intros Hz. specialize (Hb _ (or_introl eq_refl)). simpl in Hb. lia.
    - destruct before; discriminate. }
  destruct Hget as [Hget Hz]. rewrite Hget. cbn [Py.bind].
  destruct (0 <? n) eqn:E.
  - exists T. split; [reflexivity|]. now exists before, n, after.
  - apply Nat.ltb_ge in E. assert (n = 0) by lia.
    exists T. split; [now rewrite (Hz H)|]. now exists before, n, after.
Qed.

End KeywordEventType.

(* ================================================================== *)
(** ** Facts about dictionaries and the loops that fill them *)
(* ================================================================== *)

Section DictFacts.

Lemma str_in_iff (x : str) (xs : list str) :
  Py.str_in x xs = true <-> In x xs.
Proof.
  unfold Py.str_in. rewrite existsb_exists. split.
  - intros (y & Hy & E). apply str_eqb_eq in E. now subst.
  - intros H. exists x. split; [exact H | apply str_eqb_refl].
Qed.

Lemma str_in_false (x : str) (xs : list str) :
  ~ In x xs -> Py.str_in x xs = false.
Proof.
  intros H. destruct (Py.str_in x xs) eqn:E; [|reflexivity].
  apply str_in_iff in E. contradiction.
Qed.

Variable V : Type.

(** A dictionary built over distinct keys [ks]. *)
Let over (ks : list str) (f : str -> V) : Py.dict V :=
  map (fun k => (k, f k)) ks.

Lemma dict_get_over (ks : list str) (f : str -> V) (c : str) :
  Py.dict_get (over ks f) c = if Py.str_in c ks then Some (f c) else None.
Proof.
  induction ks as [|k ks IH]; simpl; [reflexivity|].
  destruct (Str.eqb c k) eqn:E; simpl.
  - apply str_eqb_eq in E. now subst.
  - exact IH.
Qed.

Lemma dict_set_over (ks : list str) (f : str -> V) (c : str) (v : V) :
  NoDup ks -> In c ks ->
  Py.dict_set (over ks f) c v
  = over ks (fun k => if Str.eqb k c then v else f k).
Proof.
  induction ks as [|k ks IH]; intros Hnd Hin; simpl; [contradiction|].
  inversion Hnd as [|? ? Hk Hnd']; subst.
  destruct (Str.eqb c k) eqn:E.
  - apply str_eqb_eq in E. subst k. rewrite str_eqb_refl. f_equal.
    apply map_ext_in. intros k Hk'.
    destruct (Str.eqb k c) eqn:E'; [|reflexivity].
    apply str_eqb_eq in E'. subst. contradiction.
  - rewrite str_eqb_sym, E. f_equal.
    apply IH; [exact Hnd'|].
    destruct Hin as [->|Hin]; [|exact Hin].
    now rewrite str_eqb_refl in E.
Qed.

Lemma keys_over (ks : list str) (f : str -> V) :
  Py.keys (over ks f) = ks.
Proof.
  unfold Py.keys, over. rewrite map_map. simpl. apply map_id.
Qed.

End DictFacts.

Section ArgumentLoops.
Import GroundingEventExtractor.

Lemma categories_nodup : NoDup Spec.categories.
Proof.
  unfold Spec.categories. cbn.
  repeat (constructor; [simpl; intuition discriminate|]). constructor.
Qed.

Lemma args_of_ext (f g : str -> list str) :
  (forall k, In k Spec.categories -> f k = g k) ->
  Spec.args_of f = Spec.args_of g.
Proof.
  intros H. apply map_ext_in. intros k Hk. now rewrite H.
Qed.

Lemma args_of_get (f : str -> list str) (c : str) :
  In c Spec.categories ->
  Py.dict_get (Spec.args_of f) c = Some (f c).
Proof.
  intros H. unfold Spec.args_of. rewrite dict_get_over.
  apply str_in_iff in H. now rewrite H.
Qed.

(** Appending to a declared category touches that category only. *)
Lemma append_to_args_of (f : str -> list str) (c v : str) :
  In c Spec.categories ->
  append_to (Spec.args_of f) c v
  = Py.Ok (Spec.args_of
             (fun k => f k ++ if Str.eqb k c then [v] else [])).
Proof.
  intros H. unfold append_to, Py.dict_item.
  rewrite args_of_get by exact H. cbn [Py.bind]. f_equal.
  unfold Spec.args_of.
  rewrite dict_set_over by (exact categories_nodup || exact H).
  apply map_ext. intros k.
  destruct (Str.eqb k c) eqn:E; [|now rewrite app_nil_r].
  apply str_eqb_eq in E. now subst.
Qed.

(** A loop whose body appends [contrib x k] to each category [k] appends,
    in the end, the contributions of all elements in order. *)
Lemma for_each_appends {A : Type} (xs : list A)
      (body : A -> Py.dict (list str) -> Py.M (Py.dict (list str)))
      (contrib : A -> str -> list str) :
  (forall x f, In x xs ->
     body x (Spec.args_of f)
     = Py.Ok (Spec.args_of (fun k => f k ++ contrib x k))) ->
  forall f,
    Py.for_each xs body (Spec.args_of f)
    = Py.Ok (Spec.args_of
               (fun k => f k ++ flat_map (fun x => contrib x k) xs)).
Proof.
  induction xs as [|x xs IH]; intros Hbody f; simpl.
  - f_equal. apply args_of_ext. intros k _. now rewrite app_nil_r.
  - rewrite Hbody by now left. cbn [Py.bind].
    rewrite IH by (intros; apply Hbody; now right).
    f_equal. apply args_of_ext. intros k _. now rewrite app_assoc.
Qed.

Lemma flat_map_guard {A B : Type} (b : bool) (g : A -> list B) (xs : list A) :
  flat_map (fun x => if b then g x else []) xs
  = if b then flat_map g xs else [].
Proof.
  destruct b; [reflexivity|]. induction xs; simpl; auto.
Qed.

Lemma flat_map_singleton {A B : Type} (g : A -> B) (xs : list A) :
  flat_map (fun x => [g x]) xs = map g xs.
Proof.
  induction xs; simpl; congruence.
Qed.

(** Selecting the entry of key [k] from a dictionary with distinct keys. *)
Lemma flat_map_select {B : Type} (d : Py.dict (list str))
      (g : str -> list str -> list B) (k : str) :
  NoDup (Py.keys d) ->
  flat_map (fun entry => if Str.eqb k (fst entry)
                         then g (fst entry) (snd entry) else []) d
  = match Py.dict_get d k with
    | Some ps => g k ps
    | None => []
    end.
Proof.
  induction d as [|[k' ps] d IH]; intros Hnd; simpl; [reflexivity|].
  inversion Hnd as [|? ? Hk Hnd']; subst.
  destruct (Str.eqb k k') eqn:E.
  - apply str_eqb_eq in E. subst k'.
    rewrite IH by exact Hnd'.
    destruct (Py.dict_get d k) eqn:G; [|now rewrite app_nil_r].
    exfalso. apply Hk. clear - G.
    induction d as [|[k2 v2] d IH]; simpl in *; [discriminate|].
    destruct (Str.eqb k k2) eqn:E2.
    + apply str_eqb_eq in E2. now left.
    + right. now apply IH.
  - simpl. now apply IH.
Qed.

End ArgumentLoops.

Section ArgumentSteps.
Import GroundingEventExtractor.

Lemma flat_map_filter {A B : Type} (p : A -> bool) (g : A -> B) (xs : list A) :
  flat_map (fun x => if p x then [g x] else []) xs = map g (filter p xs).
Proof.
  induction xs as [|x xs IH]; simpl; [reflexivity|].
  destruct (p x); simpl; congruence.
Qed.

(** Step 1 appends to every category the strings of its keywords. *)
Lemma keyword_step_ok (text : str) (f : str -> list str) :
  keyword_step text (Spec.args_of f)
  = Py.Ok (Spec.args_of (fun k => f k ++ Spec.keyword_strings text k)).
Proof.
  unfold keyword_step.
  rewrite (for_each_appends argument_patterns _
             (fun entry k =>
                if Str.eqb k (fst entry)
                then flat_map (Spec.keyword_matches text) (snd entry)
                else [])).
  - f_equal. apply args_of_ext. intros k _. f_equal.
    unfold Spec.keyword_strings.
    rewrite <- (flat_map_select argument_patterns
                  (fun _ ps => flat_map (Spec.keyword_matches text) ps) k)
      by exact categories_nodup.
    reflexivity.
  - intros [c patterns] g Hin. cbn [fst snd].
    assert (Hc : In c Spec.categories).
    { unfold Spec.categories, Py.keys.
      change c with (fst (c, patterns)). now apply in_map. }
    rewrite (for_each_appends patterns _
               (fun pattern k =>
                  if Str.eqb k c
                  then Spec.keyword_matches text pattern else [])).
    + f_equal. apply args_of_ext. intros k _. f_equal.
      apply flat_map_guard.
    + intros pattern h _. unfold Spec.keyword_matches.
      destruct (Py.contains (Py.lower pattern) (Py.lower text)).
      * rewrite (for_each_appends _ _
                   (fun m k =>
                      if Str.eqb k c
                      then [Py.slice text (fst m) (snd m)] else [])).
        -- f_equal. apply args_of_ext. intros k _. f_equal.
           rewrite flat_map_guard. now rewrite flat_map_singleton.
        -- intros m h' _. now apply append_to_args_of.
      * f_equal. apply args_of_ext. intros k _.
        destruct (Str.eqb k c); now rewrite app_nil_r.
Qed.

(** Step 2, one entity: its text goes to its category, if it has one. *)
Lemma ner_step_ok (ent : Spacy.Ent) (f : str -> list str) :
  ner_step ent (Spec.args_of f)
  = Py.Ok (Spec.args_of
             (fun k => f k ++ if Spec.has_category k ent
                              then [Spacy.ent_text ent] else [])).
Proof.
  assert (Hloc : In "location" Spec.categories) by (cbn; tauto).
  assert (Htime : In "time" Spec.categories) by (cbn; tauto).
  assert (Hresp : In "response" Spec.categories) by (cbn; tauto).
  assert (Hves : In "vessel" Spec.categories) by (cbn; tauto).
  unfold ner_step, Spec.has_category, Spec.ner_category.
  destruct (Py.str_in (Spacy.label_ ent) ["GPE"; "LOC"; "FAC"]);
    [now apply append_to_args_of|].
  destruct (Py.str_in (Spacy.label_ ent) ["DATE"; "TIME"]);
    [now apply append_to_args_of|].
  unfold Py.str_in at 1. cbn [existsb]. rewrite orb_false_r.
  destruct (Str.eqb (Spacy.label_ ent) "ORG").
  - cbn [existsb]. rewrite orb_false_r, orb_assoc.
    destruct (Py.contains "guard" (Py.lower (Spacy.ent_text ent))
              || Py.contains "rescue" (Py.lower (Spacy.ent_text ent))
              || Py.contains "maritime" (Py.lower (Spacy.ent_text ent)));
      now apply append_to_args_of.
  - f_equal. apply args_of_ext. intros k _. now rewrite app_nil_r.
Qed.

Lemma ner_loop_ok (doc : Spacy.Doc) (f : str -> list str) :
  Py.for_each (Spacy.ents doc) ner_step (Spec.args_of f)
  = Py.Ok (Spec.args_of (fun k => f k ++ Spec.ner_strings doc k)).
Proof.
  rewrite (for_each_appends _ _
             (fun ent k => if Spec.has_category k ent
                           then [Spacy.ent_text ent] else [])).
  - f_equal. apply args_of_ext. intros k _. f_equal. apply flat_map_filter.
  - intros ent g _. apply ner_step_ok.
Qed.

(** Step 3, one token: a trigger subject goes to the vessels. *)
Lemma dependency_step_ok (doc : Spacy.Doc) (token : Spacy.Token)
                         (f : str -> list str) :
  dependency_step doc token (Spec.args_of f)
  = Py.Ok (Spec.args_of
             (fun k => f k ++ if Str.eqb k "vessel"
                              then if Spec.is_trigger_subject doc token
                                   then [Spacy.tok_text token] else []
                              else [])).
Proof.
  assert (Hves : In "vessel" Spec.categories) by (cbn; tauto).
  unfold dependency_step, Spec.is_trigger_subject.
  destruct (Str.eqb (Spacy.pos_ token) "PROPN"
            && Py.str_in (Spacy.dep_ token) ["nsubj"; "nsubjpass"]);
    cbn [andb].
  - destruct (existsb _ trigger_patterns).
    + now apply append_to_args_of.
    + f_equal. apply args_of_ext. intros k _.
      destruct (Str.eqb k "vessel"); now rewrite app_nil_r.
  - f_equal. apply args_of_ext. intros k _.
    destruct (Str.eqb k "vessel"); now rewrite app_nil_r.
Qed.

Lemma dependency_loop_ok (doc : Spacy.Doc) (f : str -> list str) :
  Py.for_each (Spacy.tokens doc) (dependency_step doc) (Spec.args_of f)
  = Py.Ok (Spec.args_of (fun k => f k ++ Spec.dep_strings doc k)).
Proof.
  rewrite (for_each_appends _ _
             (fun token k =>
                if Str.eqb k "vessel"
                then if Spec.is_trigger_subject doc token
                     then [Spacy.tok_text token] else []
                else [])).
  - f_equal. apply args_of_ext. intros k _. f_equal.
    unfold Spec.dep_strings. rewrite flat_map_guard.
    destruct (Str.eqb k "vessel"); [apply flat_map_filter|reflexivity].
  - intros token g _. apply dependency_step_ok.
Qed.

(** Step 4 deduplicates the categories it is run on, each once. *)
Lemma dedup_loop_ok (ks : list str) :
  NoDup ks -> incl ks Spec.categories ->
  forall f,
    Py.for_each ks dedup_step (Spec.args_of f)
    = Py.Ok (Spec.args_of
               (fun k => if Py.str_in k ks then Py.list_set (f k) else f k)).
Proof.
  induction ks as [|k0 ks IH]; intros Hnd Hincl f; [reflexivity|].
  inversion Hnd as [|? ? Hk Hnd']; subst.
  assert (Hc : In k0 Spec.categories) by (apply Hincl; now left).
  cbn [Py.for_each]. unfold dedup_step at 1, Py.dict_item.
  rewrite args_of_get by exact Hc. cbn [Py.bind].
  unfold Spec.args_of at 1.
  rewrite dict_set_over by (exact categories_nodup || exact Hc).
  fold (Spec.args_of
          (fun k => if Str.eqb k k0 then Py.list_set (f k0) else f k)).
  rewrite IH; [|exact Hnd'|intros k Hin; apply Hincl; now right].
  f_equal. apply args_of_ext. intros k _.
  unfold Py.str_in at 2. cbn [existsb]. fold (Py.str_in k ks).
  destruct (Str.eqb k k0) eqn:E; cbn [orb]; [|reflexivity].
  apply str_eqb_eq in E. subst k.
  now rewrite (str_in_false k0 ks Hk).
Qed.

(** With the analyzer loaded, [extract_arguments] returns, for every
    declared category, the deduplicated strings of the three steps. *)
Lemma extract_arguments_loaded (nlp : str -> Spacy.Doc) (text : str) :
  extract_arguments (Some nlp) text
  = Py.Ok (Spec.args_of
             (fun k => Py.list_set (Spec.keyword_strings text k
                                    ++ Spec.ner_strings (nlp text) k
                                    ++ Spec.dep_strings (nlp text) k))).
Proof.
  unfold extract_arguments.
  replace (map (fun entry => (fst entry, [])) argument_patterns)
    with (Spec.args_of (fun _ => []))
    by (unfold Spec.args_of, Spec.categories, Py.keys; now rewrite map_map).
  rewrite keyword_step_ok. cbn [Py.bind].
  rewrite ner_loop_ok. cbn [Py.bind].
  rewrite dependency_loop_ok. cbn [Py.bind].
  unfold Spec.args_of at 1. rewrite keys_over.
  fold (Spec.args_of
          (fun k => (([] ++ Spec.keyword_strings text k)
                     ++ Spec.ner_strings (nlp text) k)
                    ++ Spec.dep_strings (nlp text) k)).
  rewrite dedup_loop_ok by (exact categories_nodup || apply incl_refl).
  cbn [Py.bind]. f_equal. apply args_of_ext. intros k Hk.
  apply str_in_iff in Hk. rewrite Hk. cbn [app].
  now rewrite <- app_assoc.
Qed.

End ArgumentSteps.

(* ================================================================== *)
(** ** Facts about the matcher-centric variant *)
(* ================================================================== *)

Section MatcherFacts.
Import SpacyGroundingExtractor.

(** Splits on every comparison of a label with a constant and drops the
    cases where the label would equal two constants. *)
Ltac label_cases :=
  repeat match goal with
         | |- context [Str.eqb ?l ?c] => destruct (Str.eqb l c) eqn:?
         end;
  repeat match goal with
         | H : Str.eqb _ _ = true |- _ => apply str_eqb_eq in H
         end;
  try congruence.

Let sel (labels : list str) (ent : Spacy.Ent) : list str :=
  if Py.str_in (Spacy.label_ ent) labels then [Spacy.ent_text ent] else [].

Lemma ner_entity_ok (acc : NerResults) (ent : Spacy.Ent) :
  ner_entity acc ent
  = {| ner_organizations := ner_organizations acc ++ sel ["ORG"] ent;
       ner_locations := ner_locations acc ++ sel ["GPE"; "LOC"; "FAC"] ent;
       ner_times := ner_times acc ++ sel ["DATE"; "TIME"] ent;
       ner_persons := ner_persons acc ++ sel ["PERSON"] ent |}.
Proof.
  destruct acc as [a b c d].
  unfold ner_entity, sel, Py.str_in. cbn [existsb ner_organizations
    ner_locations ner_times ner_persons].
  label_cases; cbn [orb]; now rewrite ?app_nil_r.
Qed.

Lemma ner_fold_ok (es : list Spacy.Ent) :
  forall acc,
    fold_left ner_entity es acc
    = {| ner_organizations :=
           ner_organizations acc ++ flat_map (sel ["ORG"]) es;
         ner_locations :=
           ner_locations acc ++ flat_map (sel ["GPE"; "LOC"; "FAC"]) es;
         ner_times := ner_times acc ++ flat_map (sel ["DATE"; "TIME"]) es;
         ner_persons := ner_persons acc ++ flat_map (sel ["PERSON"]) es |}.
Proof.
  induction es as [|e es IH]; intros acc; simpl.
  - destruct acc. simpl. now rewrite !app_nil_r.
  - rewrite IH, ner_entity_ok. simpl. now rewrite <- !app_assoc.
Qed.

(** [extract_with_ner] sorts the entity texts by label, keeping document
    order and repetitions. *)
Lemma extract_with_ner_ok (doc : Spacy.Doc) :
  extract_with_ner doc
  = {| ner_organizations := Spec.with_label ["ORG"] doc;
       ner_locations := Spec.with_label ["GPE"; "LOC"; "FAC"] doc;
       ner_times := Spec.with_label ["DATE"; "TIME"] doc;
       ner_persons := Spec.with_label ["PERSON"] doc |}.
Proof.
  unfold extract_with_ner. rewrite ner_fold_ok. simpl.
  unfold Spec.with_label, sel. now rewrite !flat_map_filter.
Qed.

Lemma lower_char_not_M (c : char) : ~ In (Str.Latin "M") (Py.lower_char c).
Proof.
  destruct c as [a| |]; simpl; [|intuition discriminate..].
  intros [H|[]]. revert H.
  destruct a as [[] [] [] [] [] [] [] []]; vm_compute; discriminate.
Qed.

Lemma lower_not_M (s : str) : ~ In (Str.Latin "M") (Py.lower s).
Proof.
  induction s as [|c s IH]; simpl; [tauto|].
  intros H. apply in_app_or in H as [H|H]; [|exact (IH H)].
  exact (lower_char_not_M c H).
Qed.

Lemma prefix_head (c : char) (rest hay : str) :
  Str.prefix (c :: rest) hay = true -> In c hay.
Proof.
  destruct hay as [|c' hay]; simpl; [discriminate|].
  intros H. apply andb_true_iff in H as [H _].
  apply char_eqb_eq in H. now left.
Qed.

Lemma contains_head (c : char) (rest hay : str) :
  Py.contains (c :: rest) hay = true -> In c hay.
Proof.
  induction hay as [|c' hay IH]; intros H.
  - simpl in H. discriminate.
  - cbn [Py.contains] in H. apply orb_true_iff in H as [H|H].
    + now apply prefix_head in H.
    + right. now apply IH.
Qed.

(** A lower-cased string contains no string that starts with a capital M. *)
Lemma lower_contains_M (rest s : str) :
  Py.contains (Str.Latin "M" :: rest) (Py.lower s) = false.
Proof.
  destruct (Py.contains _ (Py.lower s)) eqn:E; [|reflexivity].
  apply contains_head in E. now apply lower_not_M in E.
Qed.

Lemma is_ship_org_names_ship (org : str) :
  is_ship_org org = Spec.names_ship org.
Proof.
  unfold is_ship_org, Spec.names_ship. cbn [existsb].
  rewrite !lower_contains_M. cbn [orb].
  now rewrite !orb_false_r, !orb_assoc.
Qed.

(** Presence of a keyword among the lowered triggers, as a count. *)
Lemma any_in_lowered (words triggers : list str) :
  existsb (fun t => Py.str_in t (map Py.lower triggers)) words
  = (0 <? Spec.count_lower words triggers).
Proof.
  unfold Spec.count_lower.
  destruct (existsb _ words) eqn:E.
  - apply existsb_exists in E as (w & Hw & Hin).
    apply str_in_iff, in_map_iff in Hin as (t & <- & Ht).
    symmetry. apply Nat.ltb_lt.
    assert (Hf : In t (filter (fun t => Py.str_in (Py.lower t) words)
                               triggers)).
    { apply filter_In. split; [exact Ht | now apply str_in_iff]. }
    destruct (filter _ triggers); [contradiction | simpl; lia].
  - symmetry. apply Nat.ltb_ge.
    destruct (filter _ triggers) as [|t l] eqn:F; [simpl; lia|exfalso].
    assert (Hf : In t (filter (fun t => Py.str_in (Py.lower t) words)
                               triggers)) by (rewrite F; now left).
    apply filter_In in Hf as [Ht Hw]. apply str_in_iff in Hw.
    assert (Hex : existsb (fun t => Py.str_in t (map Py.lower triggers))
                          words = true).
    { apply existsb_exists. exists (Py.lower t). split; [exact Hw|].
      apply str_in_iff, in_map, Ht. }
    congruence.
Qed.

(** The matcher-centric resolver as a cascade over the three counts. *)
Lemma determine_event_type_cascade (triggers : list str) :
  triggers <> [] ->
  _determine_event_type triggers
  = if 0 <? Spec.count_lower Spec.grounding_words triggers
    then "grounding"
    else if 0 <? Spec.count_lower Spec.collision_words triggers
    then "collision_grounding"
    else if 0 <? Spec.count_lower Spec.stranding_words triggers
    then "stranding"
    else "marine_accident".
Proof.
  intros Hne. destruct triggers as [|t ts]; [congruence|].
  unfold _determine_event_type.
  now rewrite <- !any_in_lowered.
Qed.

End MatcherFacts.

(* ================================================================== *)
(** ** Totality of the keyword-centric extractor *)
(* ================================================================== *)

Section Totality.
Import GroundingEventExtractor.

Lemma extract_event_type_total (text : str) (ts : list TriggerMatch) :
  exists T, extract_event_type text ts = Py.Ok T.
Proof.
  destruct ts as [|t ts]; [now exists "unknown"|].
  destruct (extract_event_type_first_max text (t :: ts)) as (T & H & _);
    [discriminate|].
  now exists T.
Qed.

Lemma extract_arguments_total (nlp : Nlp) (text : str) :
  exists args, extract_arguments nlp text = Py.Ok args.
Proof.
  destruct nlp as [nlp|]; [|now exists []].
  eexists. apply extract_arguments_loaded.
Qed.

(** [extract] never raises, and its fields are what the three steps
    return. *)
Lemma extract_total (nlp : Nlp) (text_in : str) :
  exists T args,
    extract_event_type text_in (extract_trigger_words text_in) = Py.Ok T
    /\ extract_arguments nlp text_in = Py.Ok args
    /\ extract nlp text_in
       = Py.Ok {| text := text_in;
                  trigger_words :=
                    map (fun t => fst (fst t)) (extract_trigger_words text_in);
                  event_type := T;
                  arguments := args;
                  trigger_positions := extract_trigger_words text_in |}.
Proof.
  destruct (extract_event_type_total text_in (extract_trigger_words text_in))
    as [T HT].
  destruct (extract_arguments_total nlp text_in) as [args Hargs].
  exists T, args. repeat split; try assumption.
  unfold extract. now rewrite HT, Hargs.
Qed.

(** X13.  With the analyzer loaded every declared category is a key of the
    arguments, bound to a duplicate-free list that holds exactly the strings
    of the keyword search, of the entity classifier and of the dependency
    step for that category. *)
Lemma keyword_arguments_union (nlp : str -> Spacy.Doc) (text c : str) :
  In c Spec.categories ->
  exists args values,
    extract_arguments (Some nlp) text = Py.Ok args
    /\ Py.keys args = Spec.categories
    /\ Py.dict_get args c = Some values
    /\ NoDup values
    /\ forall s, In s values <->
                 In s (Spec.keyword_strings text c)
                 \/ In s (Spec.ner_strings (nlp text) c)
                 \/ In s (Spec.dep_strings (nlp text) c).
Proof.
  intros Hc. eexists. eexists.
  split; [apply extract_arguments_loaded|].
  split; [apply keys_over|].
  split; [now apply args_of_get|].
  split; [apply NoDup_nodup|].
  intros s. unfold Py.list_set. rewrite nodup_In, !in_app_iff. tauto.
Qed.

End Totality.

(* ================================================================== *)
(** ** Properties of trigger extraction *)
(* ================================================================== *)

Module K := GroundingEventExtractor.
Module S := SpacyGroundingExtractor.

(** Every element [(kw, s, e)] that [extract_trigger_words] returns is a
    trigger keyword that stands in the lower-cased text between offsets
    [s] and [e] as a whole word.  The offsets are those of [text.lower()]. *)
Lemma trigger_matches_lowered_text (text kw : str) (s e : nat) :
  In (kw, s, e) (K.extract_trigger_words text) ->
  In kw K.trigger_patterns
  /\ Spec.exact_word_at kw (Py.lower text) s e.
Proof. apply trigger_match_sound. Qed.

(** On a text without U+0130 the offsets are offsets in the text itself:
    the keyword is found there, up to case, as a whole word, and "aground"
    is never matched inside "background". *)
Lemma trigger_matches_plain_text (text kw : str) (s e : nat) :
  Spec.plain text ->
  In (kw, s, e) (K.extract_trigger_words text) ->
  In kw K.trigger_patterns
  /\ Spec.whole_word_at kw text s e
  /\ forall pre post,
       text = (pre ++ "background" ++ post)%list ->
       ~ (kw = "aground" /\ s = List.length pre + 4).
Proof.
  intros Hp H. apply trigger_match_sound in H as [Hk Hw].
  apply exact_word_up_to_case, whole_word_of_lowered in Hw; [|exact Hp].
  split; [exact Hk|]. split; [exact Hw|].
  intros pre post -> [-> ->].
  destruct Hw as (_ & _ & _ & N & _).
  replace (List.length pre + 4) with (S (List.length pre + 3)) in N
    by lia.
  unfold Spec.char_before in N. rewrite get_append_right in N.
  simpl in N. discriminate.
Qed.

(** C3.  The offsets of a trigger match are offsets of the lower-cased
    text, and the word boundaries are those of the lower-cased text; on a
    text that holds U+0130, whose lower case is two code points, a match
    need not be a whole-word occurrence of its keyword at its offsets.
    On the text "İ hit a reef" [extract_trigger_words]
    returns the keyword "hit" with the offsets 3 and 6; the text between
    these offsets is "it ", so the element is not an occurrence of "hit"
    at those offsets, while the whole word "hit" stands at 2 and 5.  On
    the text "İhit", a single word, it reports "hit" although that text
    holds "hit" nowhere as a whole word. *)
Theorem trigger_offsets_of_lowered_text :
  K.extract_trigger_words (Str.CapitalIDot :: " hit a reef")
  = [("hit", 3, 6)]
  /\ Py.slice (Str.CapitalIDot :: " hit a reef") 3 6 = "it "
  /\ ~ Spec.whole_word_at "hit" (Str.CapitalIDot :: " hit a reef") 3 6
  /\ Spec.whole_word_at "hit" (Str.CapitalIDot :: " hit a reef") 2 5
  /\ K.extract_trigger_words (Str.CapitalIDot :: "hit") = [("hit", 2, 5)]
  /\ forall s e, ~ Spec.whole_word_at "hit" (Str.CapitalIDot :: "hit") s e.
Proof.
  split; [reflexivity|]. split; [reflexivity|]. split; [|split; [|split]].
  - intros (_ & _ & L & _). discriminate L.
  - unfold Spec.whole_word_at. simpl.
    repeat split; try reflexivity; lia.
  - reflexivity.
  - intros s e (-> & Hb & L & N & _).
    change (List.length "hit") with 3 in Hb.
    change (List.length (Str.CapitalIDot :: "hit")) with 4 in Hb.
    destruct s as [|[|s]]; [discriminate L|discriminate N|lia].
Qed.

(** In a text whose only candidate is inside "background" nothing is
    reported. *)
Example background_has_no_trigger :
  K.extract_trigger_words "The background was dark" = [].
Proof. reflexivity. Qed.

(** C7.  Wherever the text holds "ran aground", up to case, as a whole
    word, [extract_trigger_words] reports the keyword "ran aground" and,
    as a separate match, the keyword "aground", whose span starts four
    characters further and ends where the span of "ran aground" ends.
    More generally every whole-word occurrence of every trigger keyword is
    reported, so overlapping and repeated occurrences are all kept.  The
    reported offsets are those of the occurrence in [text.lower()]; on a
    text without U+0130 they are its offsets in the text. *)
Theorem ran_aground_both_reported (text : str) (s e : nat) :
  Spec.whole_word_at "ran aground" text s e ->
  In ("ran aground", Spec.lowered_offset text s,
      Spec.lowered_offset text s + 11)
     (K.extract_trigger_words text)
  /\ In ("aground", Spec.lowered_offset text s + 4,
         Spec.lowered_offset text s + 11)
        (K.extract_trigger_words text)
  /\ (forall kw s' e',
        In kw K.trigger_patterns ->
        Spec.whole_word_at kw text s' e' ->
        In (kw, Spec.lowered_offset text s',
            Spec.lowered_offset text s' + List.length kw)
           (K.extract_trigger_words text))
  /\ (Spec.plain text ->
      forall s', s' <= List.length text -> Spec.lowered_offset text s' = s').
Proof.
  assert (Hall : forall kw s' e',
             In kw K.trigger_patterns ->
             Spec.whole_word_at kw text s' e' ->
             In (kw, Spec.lowered_offset text s',
                 Spec.lowered_offset text s' + List.length kw)
                (K.extract_trigger_words text)).
  { intros kw s' e' Hk Hw. apply trigger_match_complete; [exact Hk|].
    apply whole_word_lowered with (e := e'); [|exact Hw].
    now destruct (trigger_patterns_checked kw Hk). }
  intros H. split; [|split; [|split]].
  - apply (Hall "ran aground" s e); [cbn; tauto|exact H].
  - apply trigger_match_complete; [cbn; tauto|].
    apply ran_aground_aground.
    apply (whole_word_lowered "ran aground" text s e); [reflexivity|exact H].
  - exact Hall.
  - intros Hp s'. now apply lowered_offset_plain.
Qed.

Lemma ran_aground_both_reported_witness :
  In ("ran aground", 9, 20) (K.extract_trigger_words "The ship Ran Aground")
  /\ In ("aground", 13, 20) (K.extract_trigger_words "The ship Ran Aground").
Proof.
  assert (H : Spec.whole_word_at "ran aground" "The ship Ran Aground" 9 20).
  { unfold Spec.whole_word_at. simpl.
    repeat split; try reflexivity; lia. }
  destruct (ran_aground_both_reported _ _ _ H) as (H1 & H2 & _).
  exact (conj H1 H2).
Defined.

(** Two occurrences of one keyword and the overlapping keyword give four
    matches. *)
Example repeated_triggers_are_kept :
  K.extract_trigger_words "It ran aground; later it ran aground again"
  = [("ran aground", 3, 14); ("ran aground", 25, 36);
     ("aground", 7, 14); ("aground", 29, 36)].
Proof. reflexivity. Qed.

(** After U+0130 both matches are reported one place further than the
    phrase stands in the text. *)
Example ran_aground_after_dotted_capital :
  Spec.whole_word_at "ran aground" (Str.CapitalIDot :: " ran aground") 2 13
  /\ Spec.lowered_offset (Str.CapitalIDot :: " ran aground") 2 = 3
  /\ K.extract_trigger_words (Str.CapitalIDot :: " ran aground")
     = [("ran aground", 3, 14); ("aground", 7, 14)].
Proof.
  split; [|split; reflexivity].
  unfold Spec.whole_word_at. simpl. repeat split; try reflexivity; lia.
Qed.

(** C9.  Every trigger match has a keyword that is an entry of the trigger
    dictionary; its matched substring, the part of the lower-cased text
    between its offsets, is that keyword, and it comes from a place of the
    text that holds the keyword up to case, so the matched substring equals
    a dictionary entry up to case.  [extract] always returns a result,
    whatever the analyzer, and every element of its [trigger_words] is,
    exactly, a dictionary entry and the keyword of a reported match.
    Trigger matches, keywords with offsets, are those of the
    keyword-centric variant. *)
Theorem trigger_words_in_dictionary (nlp : K.Nlp) (text : str) :
  (forall kw s e,
     In (kw, s, e) (K.extract_trigger_words text) ->
     In kw K.trigger_patterns
     /\ Py.slice (Py.lower text) s e = kw
     /\ exists s0,
          Spec.lowered_offset text s0 = s
          /\ Py.lower (Py.slice text s0 (s0 + List.length kw))
             = Py.lower kw)
  /\ exists r,
       K.extract nlp text = Py.Ok r
       /\ K.trigger_positions r = K.extract_trigger_words text
       /\ forall w,
            In w (K.trigger_words r) ->
            In w K.trigger_patterns
            /\ exists s e s0,
                 In (w, s, e) (K.trigger_positions r)
                 /\ Py.slice (Py.lower text) s e = w
                 /\ Spec.lowered_offset text s0 = s
                 /\ Py.lower (Py.slice text s0 (s0 + List.length w))
                    = Py.lower w.
Proof.
  assert (Hsound : forall kw s e,
             In (kw, s, e) (K.extract_trigger_words text) ->
             In kw K.trigger_patterns
             /\ Py.slice (Py.lower text) s e = kw
             /\ exists s0,
                  Spec.lowered_offset text s0 = s
                  /\ Py.lower (Py.slice text s0 (s0 + List.length kw))
                     = Py.lower kw).
  { intros kw s e H.
    destruct (trigger_match_origin text kw s e H) as (s0 & Ho & _ & Hl).
    apply trigger_match_sound in H as [Hp Hw].
    split; [exact Hp|]. destruct Hw as (_ & _ & L & _).
    split; [exact L|]. now exists s0. }
  split; [exact Hsound|].
  destruct (extract_total nlp text) as (T & args & _ & _ & Hr).
  eexists. split; [exact Hr|]. split; [reflexivity|].
  cbn [K.trigger_words K.trigger_positions]. intros w Hw.
  apply in_map_iff in Hw as ([[kw s] e] & <- & Hin). cbn [fst].
  destruct (Hsound kw s e Hin) as (Hp & L & s0 & Ho & Hl).
  split; [exact Hp|]. now exists s, e, s0.
Qed.

(* ================================================================== *)
(** ** Properties of the event type resolvers *)
(* ================================================================== *)

(** C1, as stated, fails for the matcher-centric variant: among the
    triggers "struck", "struck", "grounded" the collision keywords count
    two, the grounding keywords one and the stranding keywords none, yet
    [_determine_event_type] answers "grounding". *)
Lemma highest_count_counterexample :
  Spec.count_lower Spec.collision_words ["struck"; "struck"; "grounded"] = 2
  /\ Spec.count_lower Spec.grounding_words ["struck"; "struck"; "grounded"] = 1
  /\ Spec.count_lower Spec.stranding_words ["struck"; "struck"; "grounded"] = 0
  /\ S._determine_event_type ["struck"; "struck"; "grounded"] = "grounding"
  /\ S._determine_event_type ["struck"; "struck"; "grounded"]
     <> "collision_grounding".
Proof.
  repeat split; try reflexivity. vm_compute. discriminate.
Qed.

(** C1, amended.  On a non-empty list of trigger matches
    [extract_event_type] counts, for each declared type, the triggers whose
    keyword is in the type's list, and returns the first declared type
    among those with the highest count; so a type that counts strictly more
    than every other one is returned.  On a non-empty list of trigger
    strings [_determine_event_type] does not compare counts: it returns
    the first of grounding, collision_grounding and stranding, in this
    order, that has a keyword among the lower-cased triggers, and
    marine_accident when none has. *)
Theorem event_type_resolution (text : str) (triggers : list K.TriggerMatch)
                              (strings : list str) :
  triggers <> [] ->
  strings <> [] ->
  (exists T,
     K.extract_event_type text triggers = Py.Ok T
     /\ Spec.first_max (Spec.type_counts triggers) T
     /\ forall T0 n0,
          In (T0, n0) (Spec.type_counts triggers) ->
          (forall T' n', In (T', n') (Spec.type_counts triggers) ->
                         T' <> T0 -> n' < n0) ->
          T = T0)
  /\ S._determine_event_type strings
     = if 0 <? Spec.count_lower Spec.grounding_words strings
       then "grounding"
       else if 0 <? Spec.count_lower Spec.collision_words strings
       then "collision_grounding"
       else if 0 <? Spec.count_lower Spec.stranding_words strings
       then "stranding"
       else "marine_accident".
Proof.
  intros Ht Hs. split; [|now apply determine_event_type_cascade].
  destruct (extract_event_type_first_max text triggers Ht) as (T & HT & Hmax).
  exists T. split; [exact HT|]. split; [exact Hmax|].
  intros T0 n0 Hin Hstrict.
  destruct (first_max_score _ _ Hmax) as (n & HTn & Hle).
  destruct (Str.eq_dec T T0) as [E|E]; [exact E|exfalso].
  specialize (Hstrict T n HTn E).
  specialize (Hle _ Hin). simpl in Hle. lia.
Qed.

Lemma event_type_resolution_witness :
  (exists T,
     K.extract_event_type "" [("struck", 0, 6); ("hit", 7, 10);
                              ("grounded", 11, 19)] = Py.Ok T
     /\ Spec.first_max
          (Spec.type_counts [("struck", 0, 6); ("hit", 7, 10);
                             ("grounded", 11, 19)]) T)
  /\ S._determine_event_type ["struck"; "hit"; "grounded"] = "grounding".
Proof.
  destruct (event_type_resolution ""
              [("struck", 0, 6); ("hit", 7, 10); ("grounded", 11, 19)]
              ["struck"; "hit"; "grounded"]
              ltac:(discriminate) ltac:(discriminate))
    as [(T & HT & Hmax & _) Hs].
  split; [now exists T|]. exact Hs.
Defined.

(** The keyword-centric resolver on the two shapes of the claim: a strict
    winner, and a tie that goes to the type declared first. *)
Example strict_winner_and_tie :
  K.extract_event_type "" [("struck", 0, 6); ("hit", 7, 10);
                           ("grounded", 11, 19)] = Py.Ok "collision"
  /\ K.extract_event_type "" [("struck", 0, 6); ("grounded", 7, 15)]
     = Py.Ok "grounding".
Proof. split; reflexivity. Qed.

(** C5.  When trigger extraction yields no trigger match, both resolvers
    return the string "unknown", and so does the [event_type] field of the
    result of [extract] in both variants. *)
Theorem no_triggers_unknown (nlp : K.Nlp) (loaded : S.Loaded) (text : str) :
  K.extract_trigger_words text = [] ->
  S.m_triggers (S.extract_with_matcher loaded (S.nlp loaded text)) = [] ->
  (K.extract_event_type text [] = Py.Ok "unknown"
   /\ exists r, K.extract nlp text = Py.Ok r /\ K.event_type r = "unknown")
  /\ (S._determine_event_type [] = "unknown"
      /\ exists r, S.extract (Some loaded) text = S.Results r
                   /\ S.event_type r = "unknown").
Proof.
  intros Hk Hs. split; split; try reflexivity.
  - destruct (extract_total nlp text) as (T & args & HT & _ & Hr).
    rewrite Hk in HT. injection HT as <-.
    eexists. split; [exact Hr|reflexivity].
  - eexists. split; [reflexivity|].
    cbn [S.event_type]. now rewrite Hs.
Qed.

Lemma no_triggers_unknown_witness :
  (exists r, K.extract None "The sea was calm" = Py.Ok r
             /\ K.event_type r = "unknown")
  /\ (exists r, S.extract (Some Spec.blank) "The sea was calm" = S.Results r
                /\ S.event_type r = "unknown").
Proof.
  destruct (no_triggers_unknown None Spec.blank "The sea was calm"
              ltac:(reflexivity) ltac:(reflexivity))
    as [[_ Hk] [_ Hs]].
  exact (conj Hk Hs).
Defined.

(* ================================================================== *)
(** ** Properties of the results of [extract] *)
(* ================================================================== *)

(** C2, as stated, fails for the keyword-centric variant: without the
    analyzer, on "The ship grounded", the keyword search would give "ship"
    for the vessels, but the arguments returned are the empty dictionary. *)
Lemma no_analyzer_arguments_counterexample :
  In "ship" (Spec.keyword_strings "The ship grounded" "vessel")
  /\ exists r,
       K.extract None "The ship grounded" = Py.Ok r
       /\ K.arguments r = []
       /\ Py.dict_get (K.arguments r) "vessel" = None.
Proof.
  split; [vm_compute; tauto|].
  eexists. split; [reflexivity|]. split; reflexivity.
Qed.

(** C2, amended.  When the analyzer failed to load, [extract] of the
    keyword-centric variant still returns the text, the trigger matches and
    the event type, with an empty dictionary of arguments (no keyword
    argument is searched); [extract] of the matcher-centric variant returns
    the empty dictionary.  Neither raises. *)
Theorem no_analyzer_behaviour (text : str) :
  (exists T,
     K.extract_event_type text (K.extract_trigger_words text) = Py.Ok T
     /\ K.extract None text
        = Py.Ok {| K.text := text;
                   K.trigger_words :=
                     map (fun t => fst (fst t)) (K.extract_trigger_words text);
                   K.event_type := T;
                   K.arguments := [];
                   K.trigger_positions := K.extract_trigger_words text |})
  /\ S.extract None text = S.EmptyDict.
Proof.
  split; [|reflexivity].
  destruct (extract_total None text) as (T & args & HT & Hargs & Hr).
  injection Hargs as <-. now exists T.
Qed.

(** C8, as stated, fails for the matcher-centric variant: on a text of 201
    characters the "text" field is the first 200 characters followed by
    three dots. *)
Lemma text_field_counterexample :
  List.length Spec.long_text = 201
  /\ exists r,
       S.extract (Some (S.mkLoaded (fun _ => Spec.long_text_doc)
                                   (fun _ => [])))
                 Spec.long_text = S.Results r
       /\ S.text r = (Str.substring 0 200 Spec.long_text ++ "...")%list
       /\ S.text r <> Spec.long_text.
Proof.
  split; [reflexivity|].
  eexists. split; [reflexivity|]. split; [reflexivity|].
  intros H. apply (f_equal (@List.length char)) in H. vm_compute in H.
  discriminate.
Qed.

(** C8, amended.  The "text" field of the result of [extract] is the input
    text in the keyword-centric variant, whatever the analyzer; in the
    matcher-centric variant, with the analyzer loaded, it is the input text
    when this has at most 200 characters, and otherwise its first 200
    characters followed by three dots. *)
Theorem text_field (nlp : K.Nlp) (loaded : S.Loaded) (text : str) :
  (exists r, K.extract nlp text = Py.Ok r /\ K.text r = text)
  /\ exists r,
       S.extract (Some loaded) text = S.Results r
       /\ S.text r = if 200 <? List.length text
                     then (Str.substring 0 200 text ++ "...")%list
                     else text.
Proof.
  split.
  - destruct (extract_total nlp text) as (T & args & _ & _ & Hr).
    eexists. split; [exact Hr|reflexivity].
  - eexists. split; reflexivity.
Qed.

(** C10.  In the matcher-centric variant the vessels are the distinct
    strings of the matcher's vessels, of the dependency vessels and of
    those organization entities whose lower-cased text contains "ship",
    "vessel", "tanker" or "ferry": an organization passes the test if and
    only if it contains one of these four.  The entries "MV", "MT" and "MS"
    of the tested list are never contained in a lower-cased text. *)
Theorem organizations_into_vessels (loaded : S.Loaded) (text : str) :
  (exists r,
     S.extract (Some loaded) text = S.Results r
     /\ Py.dict_get (S.arguments r) "vessels"
        = Some (Py.list_set
                  (S.m_vessels
                     (S.extract_with_matcher loaded (S.nlp loaded text))
                   ++ S.dep_vessels
                        (S.extract_with_dependency (S.nlp loaded text))
                   ++ filter Spec.names_ship
                        (Spec.with_label ["ORG"] (S.nlp loaded text)))))
  /\ (forall org,
        In org (filter S.is_ship_org
                  (S.ner_organizations
                     (S.extract_with_ner (S.nlp loaded text))))
        <-> (exists ent, In ent (Spacy.ents (S.nlp loaded text))
                         /\ Spacy.label_ ent = "ORG"
                         /\ Spacy.ent_text ent = org)
            /\ Spec.names_ship org = true)
  /\ forall org,
       S.is_ship_org org = Spec.names_ship org
       /\ Py.contains "MV" (Py.lower org) = false
       /\ Py.contains "MT" (Py.lower org) = false
       /\ Py.contains "MS" (Py.lower org) = false.
Proof.
  split; [|split].
  - eexists. split; [reflexivity|]. cbn. do 4 f_equal.
    rewrite extract_with_ner_ok. cbn [S.ner_organizations].
    apply filter_ext. exact is_ship_org_names_ship.
  - intros org. rewrite extract_with_ner_ok. cbn [S.ner_organizations].
    rewrite filter_In, is_ship_org_names_ship.
    unfold Spec.with_label. rewrite in_map_iff. split.
    + intros [(ent & <- & Hin) Hn]. apply filter_In in Hin as [Hin Hl].
      split; [|exact Hn]. exists ent. repeat split; [exact Hin|].
      apply str_in_iff in Hl. destruct Hl as [Hl|[]]. now symmetry.
    + intros [(ent & Hin & Hl & <-) Hn]. split; [|exact Hn].
      exists ent. split; [reflexivity|]. apply filter_In.
      split; [exact Hin|]. apply str_in_iff. left. now symmetry.
  - intros org. split; [apply is_ship_org_names_ship|].
    now rewrite !lower_contains_M.
Qed.

(** With upper-case prefixes only, an organization stays out of the
    vessels; with a ship word, it goes in. *)
Example ship_word_examples :
  S.is_ship_org "MV Lines" = false
  /\ S.is_ship_org "Maersk Tankers" = true.
Proof. split; reflexivity. Qed.

(* ================================================================== *)
(** ** Properties of the arguments *)
(* ================================================================== *)

(** X14.  The matcher-centric arguments always have the same seven keys,
    and the first six are bound to duplicate-free lists. *)
Lemma matcher_arguments_keys (loaded : S.Loaded) (text : str) :
  exists r,
    S.extract (Some loaded) text = S.Results r
    /\ Py.keys (S.arguments r)
       = ["vessels"; "locations"; "times"; "causes"; "damages"; "responses";
          "persons"]
    /\ (forall c values,
          c <> "persons" ->
          Py.dict_get (S.arguments r) c = Some values -> NoDup values)
    /\ Py.dict_get (S.arguments r) "persons"
       = Some (Spec.with_label ["PERSON"] (S.nlp loaded text)).
Proof.
  eexists. split; [reflexivity|]. split; [reflexivity|]. split.
  - intros c values Hc. cbn [S.arguments Py.dict_get].
    repeat match goal with
           | |- context [Str.eqb c ?k] =>
               destruct (Str.eqb c k);
               [intros [= <-]; apply NoDup_nodup|]
           end.
    destruct (Str.eqb c "persons") eqn:E; [|discriminate].
    apply str_eqb_eq in E. contradiction.
  - cbn. now rewrite extract_with_ner_ok.
Qed.

(** C4.  The code at the failing input: when the analyzer reports the
    person "John Smith" twice, the matcher-centric variant binds
    "persons" to a list that holds the name twice; every other category is
    deduplicated, this one is returned as the entity step built it. *)
Theorem persons_not_deduplicated :
  exists r,
    S.extract (Some (S.mkLoaded (fun _ => Spec.two_persons_doc)
                                (fun _ => [])))
              "John Smith met John Smith" = S.Results r
    /\ Py.dict_get (S.arguments r) "persons"
       = Some ["John Smith"; "John Smith"]
    /\ ~ NoDup ["John Smith"; "John Smith"].
Proof.
  eexists. split; [reflexivity|]. split; [reflexivity|].
  intros H. inversion H as [|? ? Hn _]; subst. apply Hn. now left.
Qed.

(** C6, as stated, fails in both variants.  On the entities "John Smith"
    (person) and "Philippine Coast Guard" (organization), the
    keyword-centric variant has no "person" key and puts the person in no
    category at all; the matcher-centric variant does not put the
    organization among the responses. *)
Lemma entity_classification_counterexample :
  (exists args,
     K.extract_arguments (Some (fun _ => Spec.coast_guard_doc))
       "John Smith called the Philippine Coast Guard" = Py.Ok args
     /\ Py.dict_get args "person" = None
     /\ forall c values,
          Py.dict_get args c = Some values -> ~ In "John Smith" values)
  /\ exists r,
       S.extract (Some (S.mkLoaded
                          (fun _ => Spec.coast_guard_doc)
                          (fun _ => Spec.coast_guard_matches)))
         "John Smith called the Philippine Coast Guard" = S.Results r
       /\ Py.dict_get (S.arguments r) "responses" = Some ["Coast Guard"]
       /\ ~ In "Philippine Coast Guard" ["Coast Guard"].
Proof.
  split.
  - eexists. split; [vm_compute; reflexivity|]. split; [reflexivity|].
    intros c values. cbn [Py.dict_get].
    repeat (destruct (Str.eqb c _);
            [intros [= <-]; simpl; intuition discriminate|]).
    discriminate.
  - eexists. split; [vm_compute; reflexivity|]. split; [reflexivity|].
    simpl. intuition discriminate.
Qed.

(** The rule of the keyword-centric entity step, label by label. *)
Lemma ner_category_rule (ent : Spacy.Ent) :
  (In (Spacy.label_ ent) ["GPE"; "LOC"; "FAC"] ->
   Spec.ner_category ent = Some "location")
  /\ (In (Spacy.label_ ent) ["DATE"; "TIME"] ->
      Spec.ner_category ent = Some "time")
  /\ (Spacy.label_ ent = "ORG" ->
      Spec.ner_category ent
      = if Py.contains "guard" (Py.lower (Spacy.ent_text ent))
           || Py.contains "rescue" (Py.lower (Spacy.ent_text ent))
           || Py.contains "maritime" (Py.lower (Spacy.ent_text ent))
        then Some "response" else Some "vessel")
  /\ (Spacy.label_ ent = "PERSON" -> Spec.ner_category ent = None).
Proof.
  unfold Spec.ner_category. repeat split.
  - intros H. apply str_in_iff in H. now rewrite H.
  - intros H. simpl in H.
    destruct H as [<-|[<-|[]]]; reflexivity.
  - intros ->. reflexivity.
  - intros ->. reflexivity.
Qed.

Lemma args_of_lookup (f : str -> list str) (c : str)
                     (values : list str) :
  Py.dict_get (Spec.args_of f) c = Some values ->
  In c Spec.categories /\ values = f c.
Proof.
  unfold Spec.args_of. rewrite dict_get_over.
  destruct (Py.str_in c Spec.categories) eqn:E; [|discriminate].
  intros [= <-]. split; [now apply str_in_iff|reflexivity].
Qed.

Lemma ner_category_declared (ent : Spacy.Ent) (c : str) :
  Spec.ner_category ent = Some c -> In c Spec.categories.
Proof.
  unfold Spec.ner_category.
  repeat match goal with
         | |- context [if ?b then _ else _] => destruct b
         end;
    intros [= <-]; cbn; tauto.
Qed.

Lemma in_ner_strings (doc : Spacy.Doc) (c s : str) :
  In s (Spec.ner_strings doc c) <->
  exists ent, In ent (Spacy.ents doc)
              /\ Spec.ner_category ent = Some c
              /\ Spacy.ent_text ent = s.
Proof.
  unfold Spec.ner_strings, Spec.has_category.
  rewrite in_map_iff. split.
  - intros (ent & <- & Hin). apply filter_In in Hin as [Hin Hc].
    exists ent. split; [exact Hin|]. split; [|reflexivity].
    destruct (Spec.ner_category ent) as [c'|]; [|discriminate].
    apply str_eqb_eq in Hc. now subst.
  - intros (ent & Hin & Hc & <-). exists ent. split; [reflexivity|].
    apply filter_In. split; [exact Hin|].
    rewrite Hc. apply str_eqb_refl.
Qed.

(** C6, amended.  In the keyword-centric variant every named entity goes
    to the category the rule gives it: location for GPE, LOC and FAC, time
    for DATE and TIME, and for ORG response when the lower-cased text
    contains "guard", "rescue" or "maritime", vessel otherwise; an entity
    with another label, PERSON included, goes nowhere, and there is no
    person category.  A string enters a category only through the keyword
    search, an entity of that category or the dependency step, so the
    organization "Philippine Coast Guard" is classified as response and
    not as vessel.  In the matcher-centric variant the entity step sorts
    the entity texts by label into organizations, locations, times and
    persons, without the rule on organizations; persons are returned under
    their own key, and the vessels take from the entities only the
    organizations that name a ship word. *)
Theorem entity_classification (nlp : str -> Spacy.Doc) (loaded : S.Loaded)
                              (text : str) :
  (exists args,
     K.extract_arguments (Some nlp) text = Py.Ok args
     /\ (forall ent c,
           In ent (Spacy.ents (nlp text)) ->
           Spec.ner_category ent = Some c ->
           exists values,
             Py.dict_get args c = Some values
             /\ In (Spacy.ent_text ent) values)
     /\ (forall c values s,
           Py.dict_get args c = Some values ->
           In s values ->
           In s (Spec.keyword_strings text c)
           \/ (exists ent, In ent (Spacy.ents (nlp text))
                           /\ Spec.ner_category ent = Some c
                           /\ Spacy.ent_text ent = s)
           \/ In s (Spec.dep_strings (nlp text) c))
     /\ Py.dict_get args "person" = None)
  /\ (forall ent,
        (In (Spacy.label_ ent) ["GPE"; "LOC"; "FAC"] ->
         Spec.ner_category ent = Some "location")
        /\ (In (Spacy.label_ ent) ["DATE"; "TIME"] ->
            Spec.ner_category ent = Some "time")
        /\ (Spacy.label_ ent = "ORG" ->
            Spec.ner_category ent
            = if Py.contains "guard" (Py.lower (Spacy.ent_text ent))
                 || Py.contains "rescue" (Py.lower (Spacy.ent_text ent))
                 || Py.contains "maritime" (Py.lower (Spacy.ent_text ent))
              then Some "response" else Some "vessel")
        /\ (Spacy.label_ ent = "PERSON" -> Spec.ner_category ent = None))
  /\ Spec.ner_category (Spacy.mkEnt "Philippine Coast Guard" "ORG")
     = Some "response"
  /\ S.extract_with_ner (S.nlp loaded text)
     = {| S.ner_organizations := Spec.with_label ["ORG"] (S.nlp loaded text);
          S.ner_locations :=
            Spec.with_label ["GPE"; "LOC"; "FAC"] (S.nlp loaded text);
          S.ner_times := Spec.with_label ["DATE"; "TIME"] (S.nlp loaded text);
          S.ner_persons := Spec.with_label ["PERSON"] (S.nlp loaded text) |}
  /\ exists r,
       S.extract (Some loaded) text = S.Results r
       /\ Py.dict_get (S.arguments r) "persons"
          = Some (Spec.with_label ["PERSON"] (S.nlp loaded text))
       /\ Py.dict_get (S.arguments r) "vessels"
          = Some (Py.list_set
                    (S.m_vessels
                       (S.extract_with_matcher loaded (S.nlp loaded text))
                     ++ S.dep_vessels
                          (S.extract_with_dependency (S.nlp loaded text))
                     ++ filter Spec.names_ship
                          (Spec.with_label ["ORG"] (S.nlp loaded text)))).
Proof.
  split; [|split; [exact ner_category_rule|split; [reflexivity|split]]].
  - eexists. split; [apply extract_arguments_loaded|]. split; [|split].
    + intros ent c Hin Hc. eexists.
      split; [apply args_of_get; now apply (ner_category_declared ent)|].
      unfold Py.list_set. rewrite nodup_In, !in_app_iff. right. left.
      apply in_ner_strings. now exists ent.
    + intros c values s Hget Hs.
      apply args_of_lookup in Hget as [_ ->].
      unfold Py.list_set in Hs. rewrite nodup_In, !in_app_iff in Hs.
      rewrite in_ner_strings in Hs. exact Hs.
    + reflexivity.
  - apply extract_with_ner_ok.
  - eexists. split; [reflexivity|]. split.
    + cbn. now rewrite extract_with_ner_ok.
    + cbn. do 4 f_equal. rewrite extract_with_ner_ok.
      cbn [S.ner_organizations].
      apply filter_ext. exact is_ship_org_names_ship.
Qed.

(* ================================================================== *)
(** ** The two extractors on one sentence *)
(* ================================================================== *)

(** The keyword-centric variant on "The ferry struck rocks near the
    harbor.": one trigger, the collision type, and the keyword arguments;
    "rocks" is not the whole word "rock". *)
Example ferry_keyword_centric :
  K.extract (Some (fun _ => Spec.ferry_doc))
            "The ferry struck rocks near the harbor."
  = Py.Ok {| K.text := "The ferry struck rocks near the harbor.";
             K.trigger_words := ["struck"];
             K.event_type := "collision";
             K.arguments :=
               [ ("vessel", ["ferry"]); ("location", ["harbor"]);
                 ("cause", []); ("time", []); ("damage", []);
                 ("response", []) ];
             K.trigger_positions := [("struck", 10, 16)] |}.
Proof. vm_compute. reflexivity. Qed.

(** The matcher-centric variant on the same sentence: the dependency walk
    gives the subject phrase as vessel and the object of "near" as
    location. *)
Example ferry_matcher_centric :
  exists r,
    S.extract (Some (S.mkLoaded (fun _ => Spec.ferry_doc)
                                (fun _ => Spec.ferry_matches)))
              "The ferry struck rocks near the harbor." = S.Results r
    /\ S.text r = "The ferry struck rocks near the harbor."
    /\ S.trigger_words r = ["struck"]
    /\ S.event_type r = "collision_grounding"
    /\ S.arguments r
       = [ ("vessels", ["The ferry"]); ("locations", ["harbor"; "the harbor"]);
           ("times", []); ("causes", []); ("damages", []);
           ("responses", []); ("persons", []) ].
Proof. eexists. split; [vm_compute; reflexivity|]. now vm_compute. Qed.

(** The empty text: no trigger, the type "unknown", every category present
    and empty. *)
Example empty_text :
  K.extract (Some (fun _ => Spacy.mkDoc [] [] [])) ""
  = Py.Ok {| K.text := "";
             K.trigger_words := [];
             K.event_type := "unknown";
             K.arguments :=
               [ ("vessel", []); ("location", []); ("cause", []);
                 ("time", []); ("damage", []); ("response", []) ];
             K.trigger_positions := [] |}.
Proof. reflexivity. Qed.

(* ================================================================== *)
(** ** Further properties: trigger extraction *)
(* ================================================================== *)

Section ScanOrder.

Variable ic : bool.
Variable pat t : str.

(** The scan reports nothing before the positions it passes over. *)
Lemma scan_after_skip :
  forall k pos skip s e,
    In (s, e) (Re.scan ic pat t k pos skip) -> pos + skip <= s.
Proof.
  induction k as [|k IH]; intros pos skip s e H; simpl in H; [contradiction|].
  destruct skip as [|skip].
  - destruct (Re.match_at ic pat t pos).
    + destruct H as [H|H]; [injection H as <- <-; lia|].
      apply IH in H. lia.
    + apply IH in H. lia.
  - apply IH in H. lia.
Qed.

(** The spans of one scan come in increasing order and do not overlap. *)
Lemma scan_sorted :
  forall k pos skip,
    StronglySorted Props.apart (Re.scan ic pat t k pos skip).
Proof.
  induction k as [|k IH]; intros pos skip; simpl; [constructor|].
  destruct skip as [|skip]; [|apply IH].
  destruct (Re.match_at ic pat t pos); [|apply IH].
  constructor; [apply IH|].
  apply Forall_forall. intros [s e] H.
  apply scan_after_skip in H. unfold Props.apart. simpl. lia.
Qed.

Lemma finditer_sorted :
  StronglySorted Props.apart (Re.finditer ic pat t).
Proof. apply scan_sorted. Qed.

End ScanOrder.

Lemma sorted_pair {A : Type} (R : A -> A -> Prop) (l : list A) (a b : A) :
  StronglySorted R l -> In a l -> In b l -> a = b \/ R a b \/ R b a.
Proof.
  induction 1 as [|x l Hs IH Hall]; intros Ha Hb; [contradiction|].
  rewrite Forall_forall in Hall.
  destruct Ha as [<-|Ha]; destruct Hb as [<-|Hb]; auto.
Qed.

(** X1.  Trigger extraction does not see the case of the text: two texts
    that are equal once lower-cased give the same trigger matches, with
    the same offsets, and [extract] gives them the same trigger words,
    trigger positions and event type. *)
Theorem triggers_ignore_case (nlp1 nlp2 : K.Nlp) (text1 text2 : str) :
  Py.lower text1 = Py.lower text2 ->
  K.extract_trigger_words text1 = K.extract_trigger_words text2
  /\ exists r1 r2,
       K.extract nlp1 text1 = Py.Ok r1
       /\ K.extract nlp2 text2 = Py.Ok r2
       /\ K.trigger_words r1 = K.trigger_words r2
       /\ K.trigger_positions r1 = K.trigger_positions r2
       /\ K.event_type r1 = K.event_type r2.
Proof.
  intros H.
  assert (E : K.extract_trigger_words text1 = K.extract_trigger_words text2).
  { unfold K.extract_trigger_words. now rewrite H. }
  split; [exact E|].
  destruct (extract_total nlp1 text1) as (T1 & a1 & HT1 & _ & Hr1).
  destruct (extract_total nlp2 text2) as (T2 & a2 & HT2 & _ & Hr2).
  eexists. eexists. split; [exact Hr1|]. split; [exact Hr2|].
  cbn [K.trigger_words K.trigger_positions K.event_type].
  rewrite E. repeat split.
  rewrite E in HT1.
  assert (HT : K.extract_event_type text1 (K.extract_trigger_words text2)
               = K.extract_event_type text2 (K.extract_trigger_words text2))
    by reflexivity.
  rewrite HT in HT1. congruence.
Qed.

Lemma triggers_ignore_case_witness :
  K.extract_trigger_words "The Ship RAN AGROUND"
  = K.extract_trigger_words "the ship ran aground".
Proof.
  exact (proj1 (triggers_ignore_case None None
                  "The Ship RAN AGROUND" "the ship ran aground" eq_refl)).
Defined.

(** X2.  Two matches of the same keyword never overlap: the one that
    starts first ends before the other starts. *)
Theorem trigger_spans_disjoint (text kw : str) (s1 e1 s2 e2 : nat) :
  In (kw, s1, e1) (K.extract_trigger_words text) ->
  In (kw, s2, e2) (K.extract_trigger_words text) ->
  s1 < s2 ->
  e1 <= s2.
Proof.
  intros H1 H2 Hlt.
  apply in_extract_trigger_words in H1 as [_ H1].
  apply in_extract_trigger_words in H2 as [_ H2].
  destruct (sorted_pair _ _ _ _
              (finditer_sorted false kw (Py.lower text)) H1 H2)
    as [E|[R|R]]; unfold Props.apart in *; simpl in *.
  - injection E as -> _. lia.
  - exact R.
  - apply finditer_sound in H2 as [_ ->]. lia.
Qed.

Lemma trigger_spans_disjoint_witness : 6 <= 11.
Proof.
  apply (trigger_spans_disjoint "It hit, it hit" "hit" 3 6 11 14).
  - vm_compute. tauto.
  - vm_compute. tauto.
  - lia.
Defined.

(* ================================================================== *)
(** ** Further properties: the event type resolvers *)
(* ================================================================== *)

Section EventTypeMore.

Lemma first_max_key (d : Py.dict nat) (T : str) :
  Spec.first_max d T -> In T (Py.keys d).
Proof.
  intros (before & n & after & -> & _). unfold Py.keys.
  rewrite map_app. apply in_or_app. right. now left.
Qed.

Lemma split_twice {A : Type} (b1 a1 b2 a2 : list A) (x y : A) :
  b1 ++ x :: a1 = b2 ++ y :: a2 ->
  x = y \/ (In x b2 /\ In y a1) \/ (In y b1 /\ In x a2).
Proof.
  revert b2. induction b1 as [|z b1 IH]; intros [|z' b2] H; simpl in H.
  - injection H as -> _. now left.
  - injection H as -> ->. right. left. split; [now left|].
    apply in_or_app. right. now left.
  - injection H as <- <-. right. right. split; [now left|].
    apply in_or_app. right. now left.
  - injection H as -> H. destruct (IH _ H) as [E|[[H1 H2]|[H1 H2]]].
    + now left.
    + right. left. split; [now right|exact H2].
    + right. right. split; [now right|exact H2].
Qed.

(** A list of scores has one first highest entry. *)
Lemma first_max_unique (d : Py.dict nat) (T1 T2 : str) :
  Spec.first_max d T1 -> Spec.first_max d T2 -> T1 = T2.
Proof.
  intros (b1 & n1 & a1 & E1 & Hb1 & Ha1) (b2 & n2 & a2 & E2 & Hb2 & Ha2).
  rewrite E1 in E2.
  destruct (split_twice _ _ _ _ _ _ E2) as [E|[[H1 H2]|[H1 H2]]].
  - congruence.
  - apply Hb2 in H1. apply Ha1 in H2. simpl in *. lia.
  - apply Hb1 in H1. apply Ha2 in H2. simpl in *. lia.
Qed.

Lemma count_for_permutation (patterns : list str)
                            (ts ts' : list K.TriggerMatch) :
  Permutation ts ts' ->
  Spec.count_for patterns ts = Spec.count_for patterns ts'.
Proof.
  unfold Spec.count_for.
  induction 1 as [|t l l' _ IH|t t' l|l l' l'' _ IH1 _ IH2]; simpl.
  - reflexivity.
  - destruct (Py.str_in _ patterns); simpl; congruence.
  - destruct (Py.str_in (fst (fst t)) patterns);
      destruct (Py.str_in (fst (fst t')) patterns); reflexivity.
  - congruence.
Qed.

Lemma count_for_untyped (T : str) (patterns : list str)
                        (ts : list K.TriggerMatch) :
  In (T, patterns) K.event_type_patterns ->
  Forall Props.untyped ts ->
  Spec.count_for patterns ts = 0.
Proof.
  intros Hin Hall. unfold Spec.count_for.
  induction Hall as [|t ts Ht _ IH]; [reflexivity|].
  cbn [filter]. specialize (Ht _ Hin). cbn [snd] in Ht. now rewrite Ht.
Qed.

(** No trigger keyword is in the list of the type "accident". *)
Lemma accident_never_counts (text : str) :
  Spec.count_for ["accident"; "incident"; "casualty"; "mishap"]
                 (K.extract_trigger_words text) = 0.
Proof.
  unfold Spec.count_for.
  assert (H : forall t, In t (K.extract_trigger_words text) ->
                        In (fst (fst t)) K.trigger_patterns).
  { intros [[kw s] e] Hin. now apply in_extract_trigger_words in Hin. }
  induction (K.extract_trigger_words text) as [|t ts IH]; [reflexivity|].
  cbn [filter].
  assert (Hn : Py.str_in (fst (fst t))
                 ["accident"; "incident"; "casualty"; "mishap"] = false).
  { specialize (H t (or_introl eq_refl)). cbn in H.
    repeat (destruct H as [<-|H]; [reflexivity|]). contradiction. }
  rewrite Hn. apply IH. intros t' Ht'. apply H. now right.
Qed.

End EventTypeMore.

(** X3.  The event type that [extract] of the keyword-centric variant
    returns is "unknown", "grounding", "collision" or "stranding", never
    "accident", whose keywords are no triggers; it is "unknown" exactly
    when no trigger word was found. *)
Theorem event_type_range (nlp : K.Nlp) (text : str) :
  exists r,
    K.extract nlp text = Py.Ok r
    /\ In (K.event_type r) ["unknown"; "grounding"; "collision"; "stranding"]
    /\ (K.event_type r = "unknown" <-> K.trigger_words r = []).
Proof.
  destruct (extract_total nlp text) as (T & args & HT & _ & Hr).
  eexists. split; [exact Hr|]. cbn [K.event_type K.trigger_words].
  destruct (K.extract_trigger_words text) as [|t ts] eqn:E.
  - injection HT as <-. split; [cbn; tauto|]. tauto.
  - destruct (extract_event_type_first_max text (t :: ts)) as (T' & HT' & Hmax);
      [discriminate|].
    rewrite HT in HT'. injection HT' as <-.
    pose proof (accident_never_counts text) as Hacc. rewrite E in Hacc.
    assert (HT4 : In T ["grounding"; "collision"; "stranding"]).
    { destruct Hmax as (before & n & after & Heq & Hb & _).
      unfold Spec.type_counts in Heq.
      cbn [map K.event_type_patterns fst snd] in Heq.
      rewrite Hacc in Heq.
      destruct before as [|p1 [|p2 [|p3 [|p4 before]]]];
        simpl in Heq; inversion Heq; subst; clear Heq; cbn; try tauto.
      - specialize (Hb _ (or_introl eq_refl)). simpl in Hb. lia.
      - destruct before; discriminate. }
    split.
    + cbn in *. tauto.
    + split; [|discriminate]. intros ->. cbn in HT4.
      repeat (destruct HT4 as [HT4|HT4]; [discriminate|]). contradiction.
Qed.

(** X4.  When triggers were found but none of their keywords is in the
    list of a declared type, [extract_event_type] falls back on
    "grounding"; this is what a text whose only trigger is "foundered"
    gets. *)
Theorem event_type_fallback (text : str) (triggers : list K.TriggerMatch) :
  triggers <> [] ->
  Forall Props.untyped triggers ->
  K.extract_event_type text triggers = Py.Ok "grounding".
Proof.
  intros Hne Hall.
  destruct (extract_event_type_first_max text triggers Hne)
    as (T & HT & before & n & after & Heq & Hb & _).
  rewrite HT. f_equal.
  unfold Spec.type_counts in Heq.
  cbn [map K.event_type_patterns fst snd] in Heq.
  rewrite (count_for_untyped "grounding"), (count_for_untyped "collision"),
    (count_for_untyped "stranding"), (count_for_untyped "accident") in Heq
    by (exact Hall || (cbn; tauto)).
  destruct before as [|p before]; [now injection Heq as <-|].
  specialize (Hb p (or_introl eq_refl)).
  simpl in Heq. injection Heq as <- Hrest. simpl in Hb.
  assert (Hin : In (T, n) (before ++ (T, n) :: after))
    by (apply in_or_app; right; now left).
  rewrite <- Hrest in Hin. cbn in Hin.
  repeat (destruct Hin as [Hin|Hin]; [injection Hin as _ <-; lia|]).
  contradiction.
Qed.

Lemma event_type_fallback_witness :
  K.extract_trigger_words "The ship foundered" = [("foundered", 9, 18)]
  /\ K.extract_event_type "The ship foundered" [("foundered", 9, 18)]
     = Py.Ok "grounding".
Proof.
  split; [reflexivity|].
  apply event_type_fallback; [discriminate|].
  constructor; [|constructor].
  intros entry Hin. cbn in Hin.
  repeat (destruct Hin as [<-|Hin]; [reflexivity|]). contradiction.
Defined.

(** X5.  The event type of the keyword-centric variant does not depend on
    the order of the trigger matches, nor on the text argument. *)
Theorem event_type_order_independent (text text' : str)
                                     (triggers triggers' : list K.TriggerMatch) :
  Permutation triggers triggers' ->
  K.extract_event_type text triggers = K.extract_event_type text' triggers'.
Proof.
  intros HP.
  destruct triggers as [|t ts].
  - apply Permutation_nil in HP. now subst.
  - destruct triggers' as [|t' ts'];
      [apply Permutation_sym, Permutation_nil in HP; discriminate|].
    destruct (extract_event_type_first_max text (t :: ts))
      as (T & HT & Hmax); [discriminate|].
    destruct (extract_event_type_first_max text' (t' :: ts'))
      as (T' & HT' & Hmax'); [discriminate|].
    rewrite HT, HT'. f_equal.
    apply (first_max_unique (Spec.type_counts (t :: ts))); [exact Hmax|].
    replace (Spec.type_counts (t :: ts)) with (Spec.type_counts (t' :: ts'));
      [exact Hmax'|].
    unfold Spec.type_counts. apply map_ext. intros entry.
    f_equal. symmetry. now apply count_for_permutation.
Qed.

Lemma event_type_order_independent_witness :
  K.extract_event_type "" [("struck", 0, 6); ("grounded", 7, 15)]
  = K.extract_event_type "" [("grounded", 7, 15); ("struck", 0, 6)].
Proof.
  apply event_type_order_independent. apply perm_swap.
Defined.

(* ================================================================== *)
(** ** Further properties: the matcher-centric variant *)
(* ================================================================== *)

Section MatcherMore.

Ltac split_labels :=
  repeat match goal with
         | |- context [Str.eqb ?l ?c] => destruct (Str.eqb l c) eqn:?
         end;
  repeat match goal with
         | H : Str.eqb _ _ = true |- _ => apply str_eqb_eq in H
         end;
  try congruence.

Let pick (label : str) (m : Spacy.Match) : list str :=
  if Str.eqb (Spacy.match_label m) label then [Spacy.span_text m] else [].

Lemma matcher_match_ok (acc : S.MatcherResults) (m : Spacy.Match) :
  S.matcher_match acc m
  = {| S.m_triggers := S.m_triggers acc ++ pick "TRIGGER" m;
       S.m_vessels := S.m_vessels acc ++ pick "VESSEL" m;
       S.m_locations := S.m_locations acc ++ pick "LOCATION" m;
       S.m_causes := S.m_causes acc ++ pick "CAUSE" m;
       S.m_damages := S.m_damages acc ++ pick "DAMAGE" m;
       S.m_responses := S.m_responses acc ++ pick "RESPONSE" m |}.
Proof.
  destruct acc as [tr ve lo ca da re].
  unfold S.matcher_match, pick.
  cbn [S.m_triggers S.m_vessels S.m_locations S.m_causes S.m_damages
       S.m_responses].
  split_labels; now rewrite ?app_nil_r.
Qed.

Lemma matcher_fold_ok (hits : list Spacy.Match) :
  forall acc,
    fold_left S.matcher_match hits acc
    = {| S.m_triggers := S.m_triggers acc ++ flat_map (pick "TRIGGER") hits;
         S.m_vessels := S.m_vessels acc ++ flat_map (pick "VESSEL") hits;
         S.m_locations :=
           S.m_locations acc ++ flat_map (pick "LOCATION") hits;
         S.m_causes := S.m_causes acc ++ flat_map (pick "CAUSE") hits;
         S.m_damages := S.m_damages acc ++ flat_map (pick "DAMAGE") hits;
         S.m_responses :=
           S.m_responses acc ++ flat_map (pick "RESPONSE") hits |}.
Proof.
  induction hits as [|m hits IH]; intros acc; simpl.
  - destruct acc. simpl. now rewrite !app_nil_r.
  - rewrite IH, matcher_match_ok. simpl. now rewrite <- !app_assoc.
Qed.

Lemma extract_with_matcher_ok (self : S.Loaded) (doc : Spacy.Doc) :
  S.extract_with_matcher self doc
  = {| S.m_triggers := Props.hits_with "TRIGGER" (S.matcher self doc);
       S.m_vessels := Props.hits_with "VESSEL" (S.matcher self doc);
       S.m_locations := Props.hits_with "LOCATION" (S.matcher self doc);
       S.m_causes := Props.hits_with "CAUSE" (S.matcher self doc);
       S.m_damages := Props.hits_with "DAMAGE" (S.matcher self doc);
       S.m_responses := Props.hits_with "RESPONSE" (S.matcher self doc) |}.
Proof.
  unfold S.extract_with_matcher. rewrite matcher_fold_ok. simpl.
  unfold Props.hits_with, pick. now rewrite !flat_map_filter.
Qed.

Lemma existsb_same {A : Type} (f g : A -> bool) (l : list A) :
  (forall x, f x = g x) -> existsb f l = existsb g l.
Proof.
  intros H. induction l as [|x l IH]; simpl; [reflexivity|].
  now rewrite H, IH.
Qed.

Lemma str_in_same (x : str) (l l' : list str) :
  (forall w, In w l <-> In w l') -> Py.str_in x l = Py.str_in x l'.
Proof.
  intros H. destruct (Py.str_in x l') eqn:E.
  - apply str_in_iff. apply H. now apply str_in_iff.
  - apply str_in_false. intros Hin. apply H, str_in_iff in Hin. congruence.
Qed.

(** The resolver sees only which lower-cased triggers are present. *)
Lemma determine_same_members (ts ts' : list str) :
  (forall w, In w (map Py.lower ts) <-> In w (map Py.lower ts')) ->
  S._determine_event_type ts = S._determine_event_type ts'.
Proof.
  intros H.
  destruct ts as [|t ts]; destruct ts' as [|t' ts'].
  - reflexivity.
  - exfalso. apply (proj2 (H (Py.lower t'))). now left.
  - exfalso. apply (proj1 (H (Py.lower t))). now left.
  - unfold S._determine_event_type.
    rewrite !(existsb_same
                (fun w => Py.str_in w (map Py.lower (t :: ts)))
                (fun w => Py.str_in w (map Py.lower (t' :: ts'))))
      by (intros w; now apply str_in_same).
    reflexivity.
Qed.

Lemma determine_unknown_iff (ts : list str) :
  S._determine_event_type ts = "unknown" <-> ts = [].
Proof.
  split; [|now intros ->].
  destruct ts as [|t ts]; [reflexivity|].
  unfold S._determine_event_type.
  repeat match goal with
         | |- context [if ?b then _ else _] => destruct b
         end; discriminate.
Qed.

End MatcherMore.

(** X6.  [_determine_event_type] depends only on which strings occur among
    the lower-cased triggers: the order of the triggers, their repetitions
    and their case do not change the answer. *)
Theorem determine_event_type_by_members (triggers triggers' : list str) :
  (forall w,
     In w (map Py.lower triggers) <-> In w (map Py.lower triggers')) ->
  S._determine_event_type triggers = S._determine_event_type triggers'.
Proof. apply determine_same_members. Qed.

Lemma determine_event_type_by_members_witness :
  S._determine_event_type ["Struck"; "HIT"; "struck"]
  = S._determine_event_type ["hit"; "struck"].
Proof.
  apply determine_event_type_by_members.
  intros w. simpl. tauto.
Defined.

(** X7.  [extract_with_matcher] sorts the span texts of the matcher hits
    by label, keeping their order and repetitions; a hit whose label is
    none of the six is dropped. *)
Theorem extract_with_matcher_by_label (self : S.Loaded) (doc : Spacy.Doc) :
  S.extract_with_matcher self doc
  = {| S.m_triggers := Props.hits_with "TRIGGER" (S.matcher self doc);
       S.m_vessels := Props.hits_with "VESSEL" (S.matcher self doc);
       S.m_locations := Props.hits_with "LOCATION" (S.matcher self doc);
       S.m_causes := Props.hits_with "CAUSE" (S.matcher self doc);
       S.m_damages := Props.hits_with "DAMAGE" (S.matcher self doc);
       S.m_responses := Props.hits_with "RESPONSE" (S.matcher self doc) |}.
Proof. apply extract_with_matcher_ok. Qed.

(** X8.  In the result of the matcher-centric [extract] the trigger words
    are the distinct span texts of the TRIGGER hits; the event type, which
    the code computes from the list with repetitions, is also the event
    type of the reported trigger words, and it is "unknown" exactly when no
    trigger word is reported. *)
Theorem matcher_trigger_words (self : S.Loaded) (text : str) :
  exists r,
    S.extract (Some self) text = S.Results r
    /\ NoDup (S.trigger_words r)
    /\ (forall w,
          In w (S.trigger_words r) <->
          In w (Props.hits_with "TRIGGER" (S.matcher self (S.nlp self text))))
    /\ S.event_type r = S._determine_event_type (S.trigger_words r)
    /\ (S.event_type r = "unknown" <-> S.trigger_words r = []).
Proof.
  eexists. split; [reflexivity|].
  cbn [S.trigger_words S.event_type].
  split; [apply NoDup_nodup|]. split; [|split].
  - intros w. unfold Py.list_set. rewrite nodup_In.
    now rewrite extract_with_matcher_ok.
  - apply determine_same_members. intros w.
    rewrite !in_map_iff. unfold Py.list_set.
    split; intros (x & Hx & Hin); exists x; split; try exact Hx;
      now apply nodup_In in Hin || apply nodup_In.
  - rewrite determine_unknown_iff. unfold Py.list_set.
    split; [now intros ->|].
    intros H. destruct (S.m_triggers _) as [|t ts]; [reflexivity|].
    exfalso. assert (Hin : In t (nodup Str.eq_dec (t :: ts)))
      by (apply nodup_In; now left).
    rewrite H in Hin. contradiction.
Qed.

Section DependencyMore.

Variable doc : Spacy.Doc.

Let subjects (token : Spacy.Token) : list str :=
  if Props.is_trigger_verb token
  then S.phrases_of_children doc ["nsubj"; "nsubjpass"] token else [].

Let places (token : Spacy.Token) : list str :=
  if Props.is_trigger_verb token
  then flat_map (S.phrases_of_children doc ["pobj"])
         (filter (fun child => Str.eqb (Spacy.dep_ child) "prep")
                 (Spacy.children doc token))
  else [].

Let reasons (token : Spacy.Token) : list str :=
  if Props.is_cause_word token
  then S.phrases_of_children doc ["pobj"; "agent"] token else [].

Lemma dependency_token_ok (acc : S.DepResults) (token : Spacy.Token) :
  S.dependency_token doc acc token
  = {| S.dep_vessels := S.dep_vessels acc ++ subjects token;
       S.dep_locations := S.dep_locations acc ++ places token;
       S.dep_causes := S.dep_causes acc ++ reasons token;
       S.dep_times := S.dep_times acc;
       S.dep_damages := S.dep_damages acc;
       S.dep_responses := S.dep_responses acc |}.
Proof.
  destruct acc as [ve lo ca ti da re].
  unfold S.dependency_token, subjects, places, reasons,
    Props.is_trigger_verb, Props.is_cause_word.
  destruct (Py.str_in (Spacy.lemma_ token) S.trigger_verbs
            || Py.str_in (Py.lower (Spacy.tok_text token)) S.trigger_verbs);
    destruct (Py.str_in (Py.lower (Spacy.tok_text token))
                        ["due"; "caused"; "because"]);
    cbn [S.dep_vessels S.dep_locations S.dep_causes S.dep_times
         S.dep_damages S.dep_responses];
    now rewrite ?app_nil_r.
Qed.

Lemma dependency_fold_ok (tokens : list Spacy.Token) :
  forall acc,
    fold_left (S.dependency_token doc) tokens acc
    = {| S.dep_vessels := S.dep_vessels acc ++ flat_map subjects tokens;
         S.dep_locations := S.dep_locations acc ++ flat_map places tokens;
         S.dep_causes := S.dep_causes acc ++ flat_map reasons tokens;
         S.dep_times := S.dep_times acc;
         S.dep_damages := S.dep_damages acc;
         S.dep_responses := S.dep_responses acc |}.
Proof.
  induction tokens as [|token tokens IH]; intros acc; simpl.
  - destruct acc. simpl. now rewrite !app_nil_r.
  - rewrite IH, dependency_token_ok. simpl. now rewrite <- !app_assoc.
Qed.

Lemma extract_with_dependency_ok :
  S.extract_with_dependency doc
  = {| S.dep_vessels := flat_map subjects (Spacy.tokens doc);
       S.dep_locations := flat_map places (Spacy.tokens doc);
       S.dep_causes := flat_map reasons (Spacy.tokens doc);
       S.dep_times := [];
       S.dep_damages := [];
       S.dep_responses := [] |}.
Proof.
  unfold S.extract_with_dependency. now rewrite dependency_fold_ok.
Qed.

Lemma in_phrases_of_children (labels : list str) (token : Spacy.Token)
                             (s : str) :
  In s (S.phrases_of_children doc labels token) <->
  s <> ""
  /\ exists child,
       In child (Spacy.children doc token)
       /\ In (Spacy.dep_ child) labels
       /\ S._get_noun_phrase doc child = s.
Proof.
  unfold S.phrases_of_children. rewrite filter_In, in_map_iff.
  unfold S.truthy. rewrite negb_true_iff, str_eqb_neq. split.
  - intros [(child & <- & Hin) Hne]. split; [exact Hne|].
    apply filter_In in Hin as [Hin Hl]. exists child.
    split; [exact Hin|]. split; [now apply str_in_iff|reflexivity].
  - intros [Hne (child & Hin & Hl & <-)]. split; [|exact Hne].
    exists child. split; [reflexivity|]. apply filter_In.
    split; [exact Hin|now apply str_in_iff].
Qed.

Lemma in_subjects (s : str) :
  In s (flat_map subjects (Spacy.tokens doc)) <->
  s <> ""
  /\ exists token child,
       In token (Spacy.tokens doc)
       /\ Props.is_trigger_verb token = true
       /\ In child (Spacy.children doc token)
       /\ In (Spacy.dep_ child) ["nsubj"; "nsubjpass"]
       /\ S._get_noun_phrase doc child = s.
Proof.
  rewrite in_flat_map. unfold subjects. split.
  - intros (token & Hin & Hs).
    destruct (Props.is_trigger_verb token) eqn:E; [|contradiction].
    apply in_phrases_of_children in Hs as [Hne (child & Hc)].
    split; [exact Hne|]. now exists token, child.
  - intros [Hne (token & child & Hin & E & Hc)]. exists token.
    split; [exact Hin|]. rewrite E. apply in_phrases_of_children.
    split; [exact Hne|]. now exists child.
Qed.

Lemma in_reasons (s : str) :
  In s (flat_map reasons (Spacy.tokens doc)) <->
  s <> ""
  /\ exists token child,
       In token (Spacy.tokens doc)
       /\ Props.is_cause_word token = true
       /\ In child (Spacy.children doc token)
       /\ In (Spacy.dep_ child) ["pobj"; "agent"]
       /\ S._get_noun_phrase doc child = s.
Proof.
  rewrite in_flat_map. unfold reasons. split.
  - intros (token & Hin & Hs).
    destruct (Props.is_cause_word token) eqn:E; [|contradiction].
    apply in_phrases_of_children in Hs as [Hne (child & Hc)].
    split; [exact Hne|]. now exists token, child.
  - intros [Hne (token & child & Hin & E & Hc)]. exists token.
    split; [exact Hin|]. rewrite E. apply in_phrases_of_children.
    split; [exact Hne|]. now exists child.
Qed.

Lemma in_places (s : str) :
  In s (flat_map places (Spacy.tokens doc)) <->
  s <> ""
  /\ exists token prep child,
       In token (Spacy.tokens doc)
       /\ Props.is_trigger_verb token = true
       /\ In prep (Spacy.children doc token)
       /\ Spacy.dep_ prep = "prep"
       /\ In child (Spacy.children doc prep)
       /\ Spacy.dep_ child = "pobj"
       /\ S._get_noun_phrase doc child = s.
Proof.
  rewrite in_flat_map. unfold places. split.
  - intros (token & Hin & Hs).
    destruct (Props.is_trigger_verb token) eqn:E; [|contradiction].
    apply in_flat_map in Hs as (prep & Hp & Hs).
    apply filter_In in Hp as [Hp Hd]. apply str_eqb_eq in Hd.
    apply in_phrases_of_children in Hs as [Hne (child & Hc & Hl & Hg)].
    split; [exact Hne|]. exists token, prep, child.
    destruct Hl as [Hl|[]]. repeat split; auto.
  - intros [Hne (token & prep & child & Hin & E & Hp & Hd & Hc & Hl & Hg)].
    exists token. split; [exact Hin|]. rewrite E.
    apply in_flat_map. exists prep. split.
    + apply filter_In. split; [exact Hp|]. now apply str_eqb_eq.
    + apply in_phrases_of_children. split; [exact Hne|].
      exists child. split; [exact Hc|]. split; [now left|exact Hg].
Qed.

End DependencyMore.

(** X9.  [extract_with_dependency] never fills the times, the damages or
    the responses, and never reports an empty string.  Its vessels are the
    noun phrases of the subject children of the trigger-verb tokens, its
    causes those of the object and agent children of the cause words, and
    its locations those of the objects of the prepositions under a trigger
    verb. *)
Theorem dependency_extraction (doc : Spacy.Doc) :
  S.dep_times (S.extract_with_dependency doc) = []
  /\ S.dep_damages (S.extract_with_dependency doc) = []
  /\ S.dep_responses (S.extract_with_dependency doc) = []
  /\ (forall s,
        In s (S.dep_vessels (S.extract_with_dependency doc)) <->
        s <> ""
        /\ exists token child,
             In token (Spacy.tokens doc)
             /\ Props.is_trigger_verb token = true
             /\ In child (Spacy.children doc token)
             /\ In (Spacy.dep_ child) ["nsubj"; "nsubjpass"]
             /\ S._get_noun_phrase doc child = s)
  /\ (forall s,
        In s (S.dep_locations (S.extract_with_dependency doc)) <->
        s <> ""
        /\ exists token prep child,
             In token (Spacy.tokens doc)
             /\ Props.is_trigger_verb token = true
             /\ In prep (Spacy.children doc token)
             /\ Spacy.dep_ prep = "prep"
             /\ In child (Spacy.children doc prep)
             /\ Spacy.dep_ child = "pobj"
             /\ S._get_noun_phrase doc child = s)
  /\ (forall s,
        In s (S.dep_causes (S.extract_with_dependency doc)) <->
        s <> ""
        /\ exists token child,
             In token (Spacy.tokens doc)
             /\ Props.is_cause_word token = true
             /\ In child (Spacy.children doc token)
             /\ In (Spacy.dep_ child) ["pobj"; "agent"]
             /\ S._get_noun_phrase doc child = s).
Proof.
  rewrite extract_with_dependency_ok.
  cbn [S.dep_times S.dep_damages S.dep_responses S.dep_vessels
       S.dep_locations S.dep_causes].
  do 3 (split; [reflexivity|]).
  split; [intros s; apply in_subjects|].
  split; [intros s; apply in_places|].
  intros s. apply in_reasons.
Qed.

(** X10.  In the matcher-centric [extract] the dependency walk adds
    nothing to three categories: the times are the distinct DATE and TIME
    entities, the damages the distinct DAMAGE hits and the responses the
    distinct RESPONSE hits of the matcher. *)
Theorem matcher_single_source_categories (self : S.Loaded) (text : str) :
  exists r,
    S.extract (Some self) text = S.Results r
    /\ Py.dict_get (S.arguments r) "times"
       = Some (Py.list_set
                 (Spec.with_label ["DATE"; "TIME"] (S.nlp self text)))
    /\ Py.dict_get (S.arguments r) "damages"
       = Some (Py.list_set
                 (Props.hits_with "DAMAGE"
                    (S.matcher self (S.nlp self text))))
    /\ Py.dict_get (S.arguments r) "responses"
       = Some (Py.list_set
                 (Props.hits_with "RESPONSE"
                    (S.matcher self (S.nlp self text)))).
Proof.
  eexists. split; [reflexivity|].
  cbn [S.arguments Py.dict_get Str.eqb Ascii.eqb Bool.eqb].
  rewrite extract_with_dependency_ok, extract_with_matcher_ok,
    extract_with_ner_ok.
  cbn [S.dep_times S.dep_damages S.dep_responses S.ner_times S.m_damages
       S.m_responses].
  now rewrite !app_nil_r.
Qed.

(** X11.  The linguistic features of the result hold the pairs of text
    and part of speech of the first ten tokens of the document, in their
    order (of all tokens when there are fewer than ten); the triples of
    text, dependency label and head text of the first ten tokens whose
    label is not "punct", so at most ten dependencies and none with that
    label; and the pair of text and label of every entity, in order. *)
Theorem linguistic_features_bounds (self : S.Loaded) (text : str) :
  exists r,
    S.extract (Some self) text = S.Results r
    /\ S.pos_tags (S.linguistic_features r)
       = map (fun token => (Spacy.tok_text token, Spacy.pos_ token))
             (firstn 10 (Spacy.tokens (S.nlp self text)))
    /\ List.length (S.pos_tags (S.linguistic_features r))
       = Nat.min 10 (List.length (Spacy.tokens (S.nlp self text)))
    /\ S.dependencies (S.linguistic_features r)
       = map (fun token =>
                (Spacy.tok_text token, Spacy.dep_ token,
                 Spacy.tok_text (Spacy.head (S.nlp self text) token)))
             (firstn 10
                (filter (fun token =>
                           if Str.eq_dec (Spacy.dep_ token) "punct"
                           then false else true)
                        (Spacy.tokens (S.nlp self text))))
    /\ List.length (S.dependencies (S.linguistic_features r)) <= 10
    /\ (forall d, In d (S.dependencies (S.linguistic_features r)) ->
                  snd (fst d) <> "punct")
    /\ S.entities (S.linguistic_features r)
       = map (fun ent => (Spacy.ent_text ent, Spacy.label_ ent))
             (Spacy.ents (S.nlp self text))
    /\ map fst (S.entities (S.linguistic_features r))
       = map Spacy.ent_text (Spacy.ents (S.nlp self text)).
Proof.
  eexists. split; [reflexivity|].
  cbn [S.linguistic_features S.pos_tags S.dependencies S.entities].
  split; [|split; [|split; [|split; [|split; [|split]]]]].
  - apply firstn_map.
  - now rewrite length_firstn, length_map.
  - rewrite firstn_map. f_equal. f_equal. apply filter_ext.
    intros token. destruct (Str.eq_dec (Spacy.dep_ token) "punct") as [E|E].
    + rewrite E. now rewrite str_eqb_refl.
    + apply str_eqb_neq in E. now rewrite E.
  - rewrite length_firstn. lia.
  - intros d Hd. apply in_firstn, in_map_iff in Hd as (token & <- & Hin).
    apply filter_In in Hin as [_ Hp]. cbn [fst snd].
    now apply negb_true_iff, str_eqb_neq in Hp.
  - reflexivity.
  - rewrite map_map. reflexivity.
Qed.

(* ================================================================== *)
(** ** Further properties: the arguments of the keyword-centric variant *)
(* ================================================================== *)

Section KeywordArgumentsMore.








End KeywordArgumentsMore.


(** The arguments of the text "İ hit a reef": the location is cut one
    place too far to the right. *)
Example keyword_arguments_after_dotted_capital :
  exists args,
    K.keyword_step (Str.CapitalIDot :: " hit a reef")
      (map (fun entry => (fst entry, [])) K.argument_patterns)
    = Py.Ok args
    /\ Py.dict_get args "location" = Some ["eef"].
Proof. eexists. split; reflexivity. Qed.

Lemma keyword_arguments_union_witness :
  exists args values,
    K.extract_arguments (Some (fun _ => Spec.ferry_doc))
      "The ferry struck rocks near the harbor." = Py.Ok args
    /\ Py.dict_get args "location" = Some values
    /\ NoDup values.
Proof.
  destruct (keyword_arguments_union (fun _ => Spec.ferry_doc)
              "The ferry struck rocks near the harbor." "location"
              ltac:(cbn; tauto))
    as (args & values & H1 & _ & H2 & H3 & _).
  now exists args, values.
Defined.

(* ================================================================== *)
(** ** Further properties: the drivers *)
(* ================================================================== *)

Section StripFacts.

Lemma rstrip_empty (s : str) :
  PyText.rstrip s = "" <-> Props.is_blank s = true.
Proof.
  induction s as [|c s IH]; simpl; [tauto|].
  destruct (PyText.rstrip s) as [|c' r].
  - destruct (PyText.is_space c); simpl.
    + tauto.
    + split; discriminate.
  - split; [discriminate|]. intros H.
    apply andb_true_iff in H as [_ H]. apply IH in H. discriminate.
Qed.

Lemma is_blank_lstrip (s : str) :
  Props.is_blank (PyText.lstrip s) = Props.is_blank s.
Proof.
  induction s as [|c s IH]; simpl; [reflexivity|].
  destruct (PyText.is_space c) eqn:E; simpl; [exact IH|].
  now rewrite E.
Qed.

(** A line passes the test [if user_text.strip():] unless it is blank. *)
Lemma strip_truthy (s : str) :
  PyText.truthy (PyText.strip s) = negb (Props.is_blank s).
Proof.
  unfold PyText.truthy, PyText.strip.
  destruct (Props.is_blank s) eqn:E.
  - rewrite <- is_blank_lstrip in E. apply rstrip_empty in E.
    now rewrite E.
  - destruct (Str.eqb (PyText.rstrip (PyText.lstrip s)) "") eqn:E';
      [|reflexivity].
    apply str_eqb_eq, rstrip_empty in E'.
    rewrite is_blank_lstrip in E'. congruence.
Qed.

End StripFacts.

Section KeywordDriver.

Variable nlp : K.Nlp.

Let extracts (line : str) (r : K.ExtractionResult) : Prop :=
  K.extract nlp line = Py.Ok r.

Lemma keyword_examples_ok (texts : list str) (rest : GroundingMain.Run) :
  exists shown,
    Forall2 extracts texts shown
    /\ GroundingMain.examples nlp texts rest
       = {| GroundingMain.displayed := shown ++ GroundingMain.displayed rest;
            GroundingMain.ending := GroundingMain.ending rest |}.
Proof.
  induction texts as [|text texts (shown & Hall & IH)]; simpl.
  - exists []. split; [constructor|]. now destruct rest.
  - destruct (extract_total nlp text) as (T & args & _ & _ & Hr).
    rewrite Hr, IH. eexists (_ :: shown).
    split; [constructor; [exact Hr|exact Hall]|reflexivity].
Qed.

Lemma keyword_interactive_ok (inputs : list str) :
  Forall2 extracts
    (filter (fun line => negb (Props.is_blank line))
            (Props.before_quit inputs))
    (GroundingMain.displayed (GroundingMain.interactive nlp inputs))
  /\ GroundingMain.ending (GroundingMain.interactive nlp inputs)
     = if existsb Props.is_quit inputs
       then GroundingMain.Returned else GroundingMain.EOFError.
Proof.
  induction inputs as [|line inputs [IH1 IH2]].
  - split; [constructor|reflexivity].
  - cbn [GroundingMain.interactive Props.before_quit existsb].
    change (Py.str_in (Py.lower line) ["quit"; "exit"; "q"])
      with (Props.is_quit line).
    destruct (Props.is_quit line);
      cbn [orb filter GroundingMain.displayed GroundingMain.ending];
      [split; [constructor|reflexivity]|].
    rewrite strip_truthy.
    destruct (Props.is_blank line); cbn [negb]; [now split|].
    destruct (extract_total nlp line) as (T & args & _ & _ & Hr).
    rewrite Hr.
    cbn [GroundingMain.show GroundingMain.displayed GroundingMain.ending].
    split; [|exact IH2].
    constructor; [exact Hr|exact IH1].
Qed.

End KeywordDriver.

(** X15.  [main] of the keyword-centric script displays the results of the
    four example texts and then, in order, the result of every line read
    before the first quit word ("quit", "exit" or "q", in any case) that is
    not blank.  It runs the extractor on no other line, reads nothing after
    the quit word, and ends by returning when there is a quit word and by
    the end-of-input error of [input] otherwise; no exception of the
    extractor escapes. *)
Theorem keyword_main_run (nlp : K.Nlp) (inputs : list str) :
  Forall2 (fun line r => K.extract nlp line = Py.Ok r)
    (GroundingMain.test_texts
     ++ filter (fun line => negb (Props.is_blank line))
               (Props.before_quit inputs))
    (GroundingMain.displayed (GroundingMain.main nlp inputs))
  /\ GroundingMain.ending (GroundingMain.main nlp inputs)
     = if existsb Props.is_quit inputs
       then GroundingMain.Returned else GroundingMain.EOFError.
Proof.
  unfold GroundingMain.main.
  destruct (keyword_examples_ok nlp GroundingMain.test_texts
              (GroundingMain.interactive nlp inputs)) as (shown & Hall & ->).
  destruct (keyword_interactive_ok nlp inputs) as [H1 H2].
  cbn [GroundingMain.displayed GroundingMain.ending].
  split; [now apply Forall2_app|exact H2].
Qed.

(** The keyword-centric driver on four lines: the blank line is passed
    over, the loop stops at "Quit", and the last line is never read. *)
Example keyword_main_example :
  map K.text
      (GroundingMain.displayed
         (GroundingMain.interactive None
            ["The ship hit a reef"; "   "; "Quit"; "It ran aground"]))
  = ["The ship hit a reef"]
  /\ GroundingMain.ending
       (GroundingMain.interactive None
          ["The ship hit a reef"; "   "; "Quit"; "It ran aground"])
     = GroundingMain.Returned.
Proof. split; reflexivity. Qed.

Section MatcherDriver.

Variable self : S.Loaded.

Lemma extract_loaded (text : str) :
  exists r, S.extract (Some self) text = S.Results r.
Proof. eexists. reflexivity. Qed.

Lemma json_follows_cons (r : S.FinalResults) (es : list SpacyMain.Event) :
  Props.json_follows_display es ->
  Props.json_follows_display (SpacyMain.Displayed r :: es).
Proof.
  destruct es as [|[r'|j] es]; simpl; tauto.
Qed.

(** One turn of the loop on a text line: the next line is taken as the
    answer to the JSON question, whatever it says. *)
Lemma matcher_turn (line answer : str) (rest : list str) :
  Props.is_text line = true ->
  exists r,
    S.extract (Some self) line = S.Results r
    /\ SpacyMain.interactive self (line :: answer :: rest)
       = SpacyMain.emit
           (SpacyMain.Displayed r
            :: if Str.eqb (Py.lower answer) "y"
               then [SpacyMain.JsonPrinted (SpacyMain.json_of r)] else [])
           (SpacyMain.interactive self rest).
Proof.
  intros Ht. unfold Props.is_text in Ht.
  apply andb_true_iff in Ht as [Hq Hb].
  apply negb_true_iff in Hq, Hb.
  destruct (extract_loaded line) as [r Hr]. exists r. split; [exact Hr|].
  cbn [SpacyMain.interactive].
  change (Py.str_in (Py.lower line) ["quit"; "exit"; "q"])
    with (Props.is_quit line).
  rewrite Hq, strip_truthy, Hb, Hr. cbn [negb].
  now destruct (Str.eqb (Py.lower answer) "y").
Qed.

(** What holds of every run of the loop. *)
Let good (inputs : list str) (run : SpacyMain.Run) : Prop :=
  (SpacyMain.ending run = SpacyMain.Returned
   \/ SpacyMain.ending run = SpacyMain.EOFError)
  /\ Props.json_follows_display (SpacyMain.events run)
  /\ forall r,
       In (SpacyMain.Displayed r) (SpacyMain.events run) ->
       exists line,
         In line inputs /\ Props.is_text line = true
         /\ S.extract (Some self) line = S.Results r.

Lemma matcher_interactive_ok :
  forall n inputs,
    List.length inputs <= n ->
    good inputs (SpacyMain.interactive self inputs).
Proof.
  induction n as [|n IH]; intros inputs Hlen.
  - destruct inputs; [|simpl in Hlen; lia].
    repeat split; auto. intros r [].
  - destruct inputs as [|line inputs].
    { repeat split; auto. intros r []. }
    cbn [SpacyMain.interactive].
    change (Py.str_in (Py.lower line) ["quit"; "exit"; "q"])
      with (Props.is_quit line).
    destruct (Props.is_quit line) eqn:Hq.
    { repeat split; auto. intros r []. }
    rewrite strip_truthy.
    destruct (Props.is_blank line) eqn:Hb; cbn [negb].
    { destruct (IH inputs ltac:(simpl in Hlen; lia)) as (He & Hj & Hp).
      split; [exact He|]. split; [exact Hj|].
      intros r Hr. destruct (Hp r Hr) as (l & Hl & Ht).
      exists l. split; [now right|exact Ht]. }
    assert (Ht : Props.is_text line = true)
      by (unfold Props.is_text; now rewrite Hq, Hb).
    destruct (extract_loaded line) as [r0 Hr0]. rewrite Hr0.
    destruct inputs as [|answer inputs].
    { split; [now right|]. split; [exact I|].
      intros r [[= <-]|[]]. exists line. split; [now left|]. now split. }
    destruct (IH inputs ltac:(simpl in Hlen; lia)) as (He & Hj & Hp).
    assert (Hp' : forall r,
               In (SpacyMain.Displayed r)
                  (SpacyMain.events (SpacyMain.interactive self inputs)) ->
               exists l, In l (line :: answer :: inputs)
                         /\ Props.is_text l = true
                         /\ S.extract (Some self) l = S.Results r).
    { intros r Hr. destruct (Hp r Hr) as (l & Hl & Hx).
      exists l. split; [right; now right|exact Hx]. }
    destruct (Str.eqb (Py.lower answer) "y");
      cbn [SpacyMain.emit SpacyMain.events SpacyMain.ending app].
    + split; [exact He|]. split; [now split|].
      intros r [[= <-]|[Hr|Hr]]; [|discriminate|now apply Hp'].
      exists line. split; [now left|]. now split.
    + split; [exact He|]. split; [now apply json_follows_cons|].
      intros r [[= <-]|Hr]; [|now apply Hp'].
      exists line. split; [now left|]. now split.
Qed.

Lemma matcher_examples_ok (texts : list str) (rest : SpacyMain.Run) :
  exists shown,
    Forall2 (fun text r => S.extract (Some self) text = S.Results r)
            texts shown
    /\ SpacyMain.examples self texts rest
       = {| SpacyMain.events :=
              map SpacyMain.Displayed shown ++ SpacyMain.events rest;
            SpacyMain.ending := SpacyMain.ending rest |}.
Proof.
  induction texts as [|text texts (shown & Hall & IH)].
  - exists []. split; [constructor|]. now destruct rest.
  - destruct (extract_loaded text) as [r Hr].
    exists (r :: shown). split; [now constructor|].
    cbn [SpacyMain.examples]. rewrite Hr, IH. reflexivity.
Qed.

Lemma json_follows_app (shown : list S.FinalResults)
                       (es : list SpacyMain.Event) :
  Props.json_follows_display es ->
  Props.json_follows_display (map SpacyMain.Displayed shown ++ es).
Proof.
  intros H. induction shown as [|r shown IH]; [exact H|].
  cbn [map app]. now apply json_follows_cons.
Qed.

End MatcherDriver.

(** X16.  [main] of the matcher-centric script does nothing when the model
    did not load.  With the model, it displays the results of the four
    example texts and then runs the loop; no exception escapes, it ends by
    returning or by the end-of-input error of [input]; every result it
    displays in the loop is the extraction of a line that is neither a quit
    word nor blank; a JSON form is printed only right after the display of
    the result it is made of; and the line read after a display is the
    answer to the JSON question, so a quit word given there does not end
    the loop. *)
Theorem matcher_main_run (self : S.Loaded) (inputs : list str) :
  SpacyMain.main None inputs = SpacyMain.mkRun [] SpacyMain.Returned
  /\ (exists shown rest,
        Forall2 (fun text r => S.extract (Some self) text = S.Results r)
                SpacyMain.test_texts shown
        /\ SpacyMain.events (SpacyMain.main (Some self) inputs)
           = map SpacyMain.Displayed shown ++ rest
        /\ rest = SpacyMain.events (SpacyMain.interactive self inputs)
        /\ forall r,
             In (SpacyMain.Displayed r) rest ->
             exists line,
               In line inputs /\ Props.is_text line = true
               /\ S.extract (Some self) line = S.Results r)
  /\ (SpacyMain.ending (SpacyMain.main (Some self) inputs)
      = SpacyMain.Returned
      \/ SpacyMain.ending (SpacyMain.main (Some self) inputs)
         = SpacyMain.EOFError)
  /\ Props.json_follows_display
       (SpacyMain.events (SpacyMain.main (Some self) inputs))
  /\ forall line answer more,
       Props.is_text line = true ->
       exists r,
         S.extract (Some self) line = S.Results r
         /\ SpacyMain.interactive self (line :: answer :: more)
            = SpacyMain.emit
                (SpacyMain.Displayed r
                 :: if Str.eqb (Py.lower answer) "y"
                    then [SpacyMain.JsonPrinted (SpacyMain.json_of r)]
                    else [])
                (SpacyMain.interactive self more).
Proof.
  split; [reflexivity|].
  destruct (matcher_interactive_ok self _ inputs (le_n _)) as (He & Hj & Hp).
  destruct (matcher_examples_ok self SpacyMain.test_texts
              (SpacyMain.interactive self inputs)) as (shown & Hall & Hrun).
  unfold SpacyMain.main. rewrite Hrun.
  cbn [SpacyMain.events SpacyMain.ending].
  split; [|split; [exact He|split]].
  - exists shown, (SpacyMain.events (SpacyMain.interactive self inputs)).
    repeat split; auto.
  - now apply json_follows_app.
  - intros line answer more. apply matcher_turn.
Qed.

(** A quit word typed as the answer to the JSON question is consumed: the
    loop goes on and fails on the end of input; typed as a text, it ends
    the loop. *)
Example quit_as_answer :
  SpacyMain.ending
    (SpacyMain.interactive Spec.blank ["The ship hit a reef"; "quit"])
  = SpacyMain.EOFError
  /\ SpacyMain.ending
       (SpacyMain.interactive Spec.blank ["The ship hit a reef"; "n"; "quit"])
     = SpacyMain.Returned.
Proof. split; reflexivity. Qed.

Lemma ner_strings_elsewhere (doc : Spacy.Doc) (c : str) :
  ~ In c ["location"; "time"; "response"; "vessel"] ->
  Spec.ner_strings doc c = [].
Proof.
  intros Hc. unfold Spec.ner_strings.
  induction (Spacy.ents doc) as [|ent ents IH]; [reflexivity|].
  cbn [filter]. replace (Spec.has_category c ent) with false; [exact IH|].
  symmetry. unfold Spec.has_category, Spec.ner_category.
  repeat match goal with
         | |- context [if ?b then _ else _] => destruct b
         end;
    try reflexivity; apply str_eqb_neq; intros ->; apply Hc; cbn; tauto.
Qed.

(** X17.  In the keyword-centric variant the causes and the damages come
    from the keyword search alone: no entity and no dependency adds to
    them. *)
Theorem keyword_single_source_categories (nlp : str -> Spacy.Doc)
                                         (text c : str) :
  In c ["cause"; "damage"] ->
  exists args,
    K.extract_arguments (Some nlp) text = Py.Ok args
    /\ Py.dict_get args c = Some (Py.list_set (Spec.keyword_strings text c)).
Proof.
  intros Hc. eexists. split; [apply extract_arguments_loaded|].
  rewrite args_of_get by (cbn in *; tauto).
  rewrite ner_strings_elsewhere
    by (cbn in *; intuition (subst; discriminate)).
  unfold Spec.dep_strings.
  replace (Str.eqb c "vessel") with false
    by (cbn in Hc; destruct Hc as [<-|[<-|[]]]; reflexivity).
  now rewrite !app_nil_r.
Qed.

Lemma keyword_single_source_categories_witness :
  exists args,
    K.extract_arguments (Some (fun _ => Spec.ferry_doc))
      "The ferry struck rocks near the harbor." = Py.Ok args
    /\ Py.dict_get args "cause"
       = Some (Py.list_set
                 (Spec.keyword_strings
                    "The ferry struck rocks near the harbor." "cause")).
Proof.
  apply keyword_single_source_categories. cbn. tauto.
Defined.
